(** * CustomFlow backend: order handlers and the OCR/chat gateway

    A shallow embedding of [controllers/orders.go], [services/ai.go] and
    the Flyway schema of the `orders` / `order_images` tables, followed
    by the properties of the written specification that were checked
    against it.

    Conventions.
    - Go [string]s are byte strings: [String.string], one [ascii] per byte.
    - Go [int] is 64 bit: a [Z] with the wrap-around written out where
      arithmetic can overflow.
    - Go [float64] is [spec_float] (binary64, the Standard Library's
      executable IEEE-754 model); only comparisons are used.
    - [log.Printf] calls have no effect on results and are left out. *)

From Stdlib Require Import ZArith String Ascii List Bool SpecFloat Lia DecimalString.
From stdpp Require Import gmap strings list.

Open Scope string_scope.
Open Scope list_scope.
Open Scope Z_scope.

(** ** Results of fallible Go functions: [(T, error)] *)

Inductive result (E A : Type) : Type :=
| Ok (a : A)
| Err (e : E).
Arguments Ok {E A} a.
Arguments Err {E A} e.

Definition is_err {E A} (r : result E A) : bool :=
  match r with Ok _ => false | Err _ => true end.

(** ** The parts of Go's [strings], [strconv] and [path/filepath] in use *)

Module GoStrings.

Definition bytes (s : string) : list Z :=
  map (fun c => Z.of_N (N_of_ascii c)) (list_ascii_of_string s).

Definition of_bytes (l : list Z) : string :=
  string_of_list_ascii (map (fun b => ascii_of_N (Z.to_N b)) l).

(** [len(s)]: the number of bytes. *)
Definition len (s : string) : Z := Z.of_nat (String.length s).

(** The ASCII members of [unicode.IsSpace]: tab, LF, VT, FF, CR, space. *)
Definition isASCIISpace (b : Z) : bool :=
  ((9 <=? b) && (b <=? 13)) || (b =? 32).

(** The other members of [unicode.IsSpace], as UTF-8 byte sequences:
    U+0085 and U+00A0 (two bytes), U+1680, U+2000..U+200A, U+2028,
    U+2029, U+202F, U+205F and U+3000 (three bytes). *)
Definition isSpace2 (b1 b2 : Z) : bool :=
  (b1 =? 194) && ((b2 =? 133) || (b2 =? 160)).

Definition isSpace3 (b1 b2 b3 : Z) : bool :=
  ((b1 =? 225) && (b2 =? 154) && (b3 =? 128))
  || ((b1 =? 226) && (b2 =? 128)
      && (((128 <=? b3) && (b3 <=? 138)) || (b3 =? 168) || (b3 =? 169) || (b3 =? 175)))
  || ((b1 =? 226) && (b2 =? 129) && (b3 =? 159))
  || ((b1 =? 227) && (b2 =? 128) && (b3 =? 128)).

Fixpoint trimLeft (s : list Z) : list Z :=
  match s with
  | [] => []
  | b1 :: r1 =>
      if isASCIISpace b1 then trimLeft r1
      else match r1 with
           | [] => s
           | b2 :: r2 =>
               if isSpace2 b1 b2 then trimLeft r2
               else match r2 with
                    | [] => s
                    | b3 :: r3 => if isSpace3 b1 b2 b3 then trimLeft r3 else s
                    end
           end
  end.

(** The same scan from the end of the string; the argument is reversed,
    so the last byte of a rune comes first. *)
Fixpoint trimRightRev (s : list Z) : list Z :=
  match s with
  | [] => []
  | b1 :: r1 =>
      if isASCIISpace b1 then trimRightRev r1
      else match r1 with
           | [] => s
           | b2 :: r2 =>
               if isSpace2 b2 b1 then trimRightRev r2
               else match r2 with
                    | [] => s
                    | b3 :: r3 => if isSpace3 b3 b2 b1 then trimRightRev r3 else s
                    end
           end
  end.

(** [strings.TrimSpace], on valid UTF-8. *)
Definition TrimSpace (s : string) : string :=
  of_bytes (rev (trimRightRev (rev (trimLeft (bytes s))))).

(** [strings.ToLower] on the ASCII letters (the strings lowered by this
    program are file extensions and driver error messages). *)
Definition lowerByte (b : Z) : Z :=
  if (65 <=? b) && (b <=? 90) then b + 32 else b.

Definition ToLower (s : string) : string := of_bytes (map lowerByte (bytes s)).

(** [strings.Contains]. *)
Fixpoint Contains (s substr : string) : bool :=
  String.prefix substr s
  || match s with
     | EmptyString => false
     | String _ r => Contains r substr
     end.

(** [strings.Join]. *)
Fixpoint Join (elems : list string) (sep : string) : string :=
  match elems with
  | [] => ""
  | [e] => e
  | e :: rest => e +:+ sep +:+ Join rest sep
  end.

(** [filepath.Ext]: the suffix from the last dot of the last path
    element; the scan runs from the end and stops at a separator. *)
Fixpoint extRev (r : list ascii) (acc : list ascii) : list ascii :=
  match r with
  | [] => []
  | c :: r' =>
      if Ascii.eqb c "/" then []
      else if Ascii.eqb c "." then c :: acc
      else extRev r' (c :: acc)
  end.

Definition Ext (path : string) : string :=
  string_of_list_ascii (extRev (rev (list_ascii_of_string path)) []).

(** [strconv.Atoi] on a 64-bit platform: an optional sign, then one or
    more decimal digits, and the value must fit [int]; [None] is the
    error result. *)
Definition minInt : Z := - 2 ^ 63.
Definition maxInt : Z := 2 ^ 63 - 1.

Fixpoint digits (s : string) (n : Z) : option Z :=
  match s with
  | EmptyString => Some n
  | String c r =>
      let d := Z.of_N (N_of_ascii c) - 48 in
      if (0 <=? d) && (d <=? 9) then digits r (n * 10 + d) else None
  end.

Definition Atoi (s : string) : option Z :=
  let '(neg, ds) :=
    match s with
    | String "-" r => (true, r)
    | String "+" r => (false, r)
    | _ => (false, s)
    end in
  match ds with
  | EmptyString => None
  | _ =>
      match digits ds 0 with
      | None => None
      | Some n =>
          let v := if neg then - n else n in
          if (minInt <=? v) && (v <=? maxInt) then Some v else None
      end
  end.

(** 64-bit two's complement wrap-around of [int] arithmetic. *)
Definition wrap (z : Z) : Z := (z + 2 ^ 63) mod 2 ^ 64 - 2 ^ 63.

(** [utf8.RuneCountInString] on valid UTF-8: the bytes that are not
    continuation bytes. *)
Definition runeCount (s : string) : Z :=
  Z.of_nat (List.length (List.filter (fun b => negb ((128 <=? b) && (b <=? 191))) (bytes s))).

(** [base64.StdEncoding.EncodeToString]. *)
Definition alphabet : string :=
  "ABCDEFGHIJKLMNOPQRSTUVWXYZabcdefghijklmnopqrstuvwxyz0123456789+/".

Definition b64 (n : Z) : ascii :=
  match String.get (Z.to_nat n) alphabet with
  | Some c => c
  | None => "="%char
  end.

Fixpoint encode (bs : list Z) : list ascii :=
  match bs with
  | [] => []
  | [a] => [b64 (a / 4); b64 ((a mod 4) * 16); "="%char; "="%char]
  | [a; b] =>
      [b64 (a / 4); b64 ((a mod 4) * 16 + b / 16); b64 ((b mod 16) * 4); "="%char]
  | a :: b :: c :: r =>
      b64 (a / 4) :: b64 ((a mod 4) * 16 + b / 16)
        :: b64 ((b mod 16) * 4 + c / 64) :: b64 (c mod 64) :: encode r
  end.

Definition EncodeToString (s : string) : string :=
  string_of_list_ascii (encode (bytes s)).

End GoStrings.

(** ** [services/ai.go]: the OCR / chat gateway *)

Module services.
Import GoStrings.

(** The process-wide configuration [aiService]. *)
Record AIService : Type := {
  APIKey : string;
  Model : string;
  Temperature : spec_float;
  MaxTokens : Z;
  BaseURL : string
}.

(** binary64 constants: 0, 2, 0.7 and 0.1. *)
Definition f64_0 : spec_float := S754_zero false.
Definition f64_2 : spec_float := S754_finite false 4503599627370496 (-51).
Definition f64_0_7 : spec_float := S754_finite false 6305039478318694 (-53).
Definition f64_0_1 : spec_float := S754_finite false 7205759403792794 (-56).

Definition InitAIService : AIService := {|
  APIKey := "";
  Model := "gpt-4o";
  Temperature := f64_0_7;
  MaxTokens := 1000;
  BaseURL := "https://api.openai.com/v1/chat/completions"
|}.

(** One completion request, as [json.Marshal] and the HTTP headers see
    it: endpoint, bearer credential, and the [OpenAIRequest] fields. *)
Record ImageURL : Type := { URL : string; Detail : string }.

Record ContentItem : Type := {
  Type_ : string;
  Text : option string;
  Image : option ImageURL
}.

Record Message : Type := {
  Role : string;
  Content : list ContentItem
}.

Record OpenAIRequest : Type := {
  req_url : string;
  req_bearer : string;
  req_model : string;
  req_messages : list Message;
  req_temperature : spec_float;
  req_max_tokens : Z
}.

(** The decoded response body: the [content] of each choice, and the
    optional [error] object. *)
Record OpenAIResponse : Type := {
  Choices : list string;
  Error : option string
}.

(** What one HTTP round trip can give. *)
Inductive HttpOutcome : Type :=
| SendFailed                                   (* client.Do / io.ReadAll error *)
| Replied (status : Z) (body : option OpenAIResponse).  (* None: body is not JSON *)

(** The collaborators outside the program: the upload directory and the
    completion endpoint. *)
Record World : Type := {
  readFile : string -> option string;   (* os.Stat + os.ReadFile of ./uploads/<name> *)
  post : OpenAIRequest -> HttpOutcome
}.

Inductive Event : Type :=
| EvRead (imagePath : string)
| EvPost (r : OpenAIRequest).

Inductive AIError : Type :=
| NoImagesProvided
| APIKeyNotConfigured
| ImageUnreadable (imagePath : string)
| SendError
| APIStatus (status : Z)
| UnmarshalError
| APIError (msg : string)
| NoChoices
| NoTextExtracted (n : Z).   (* "could not extract text from any of the %d images" *)

Definition ocrPrompt : string :=
  "Please extract ALL text from this image. This could be a screenshot of customer messages, order details, specifications, or any other text content. Return only the extracted text content without any additional commentary, formatting, or explanations. If you see table dimensions, customer names, order details, or any specifications, include everything exactly as written.".

Definition separator : string :=
  String "010" (String "010" ("---NEXT IMAGE---" +:+ String "010" (String "010" ""))).

(** [imageToBase64]: the data URL of an uploaded file. *)
Definition ocrMimeType (ext : string) : string :=
  if String.eqb ext ".jpg" || String.eqb ext ".jpeg" then "image/jpeg"
  else if String.eqb ext ".png" then "image/png"
  else if String.eqb ext ".gif" then "image/gif"
  else if String.eqb ext ".webp" then "image/webp"
  else "image/jpeg".

Definition imageToBase64 (w : World) (imagePath : string) : result AIError string :=
  match readFile w imagePath with
  | None => Err (ImageUnreadable imagePath)
  | Some imageBytes =>
      let ext := ToLower (Ext imagePath) in
      let mimeType := ocrMimeType ext in
      Ok ("data:" +:+ mimeType +:+ ";base64," +:+ EncodeToString imageBytes)
  end.

(** The request [performOCRRequest] builds, and how it reads the reply. *)
Definition ocrRequest (svc : AIService) (base64Image : string) : OpenAIRequest := {|
  req_url := BaseURL svc;
  req_bearer := APIKey svc;
  req_model := "gpt-4o";
  req_messages :=
    [ {| Role := "user";
         Content :=
           [ {| Type_ := "text"; Text := Some ocrPrompt; Image := None |};
             {| Type_ := "image_url"; Text := None;
                Image := Some {| URL := base64Image; Detail := "high" |} |} ] |} ];
  req_temperature := f64_0_1;
  req_max_tokens := 500
|}.

Definition performOCRRequest (svc : AIService) (w : World) (base64Image : string)
  : result AIError string :=
  match post w (ocrRequest svc base64Image) with
  | SendFailed => Err SendError
  | Replied status body =>
      if negb (status =? 200) then Err (APIStatus status)
      else match body with
           | None => Err UnmarshalError
           | Some openAIResp =>
               match Error openAIResp with
               | Some msg => Err (APIError msg)
               | None =>
                   match Choices openAIResp with
                   | [] => Err NoChoices
                   | content :: _ => Ok content
                   end
               end
           end
  end.

(** The body of the [for i, imagePath := range images] loop: the texts
    gathered so far and the interactions with the outside so far. *)
Fixpoint ocrLoop (svc : AIService) (w : World) (images : list string)
    (extractedTexts : list string) (tr : list Event) : list string * list Event :=
  match images with
  | [] => (extractedTexts, tr)
  | imagePath :: rest =>
      match imageToBase64 w imagePath with
      | Err _ => ocrLoop svc w rest extractedTexts (tr ++ [EvRead imagePath])
      | Ok base64Image =>
          let tr' := tr ++ [EvRead imagePath; EvPost (ocrRequest svc base64Image)] in
          match performOCRRequest svc w base64Image with
          | Err _ => ocrLoop svc w rest extractedTexts tr'
          | Ok extractedText =>
              if negb (String.eqb (TrimSpace extractedText) "")
              then ocrLoop svc w rest (extractedTexts ++ [TrimSpace extractedText]) tr'
              else ocrLoop svc w rest extractedTexts tr'
          end
      end
  end.

(** [ExtractTextFromImages]: the result, and the reads and requests it
    made on the way. *)
Definition ExtractTextFromImages (svc : AIService) (w : World) (images : list string)
  : result AIError string * list Event :=
  if (Z.of_nat (List.length images) =? 0) then (Err NoImagesProvided, [])
  else if String.eqb (APIKey svc) "" then (Err APIKeyNotConfigured, [])
  else
    let '(extractedTexts, tr) := ocrLoop svc w images [] [] in
    if (Z.of_nat (List.length extractedTexts) =? 0)
    then (Err (NoTextExtracted (Z.of_nat (List.length images))), tr)
    else (Ok (Join extractedTexts separator), tr).

(** What one image contributes, in the words of the specification: its
    text when the file can be read, the request succeeds and the
    trimmed answer is not empty. *)
Definition imageText (svc : AIService) (w : World) (imagePath : string) : option string :=
  match imageToBase64 w imagePath with
  | Err _ => None
  | Ok base64Image =>
      match performOCRRequest svc w base64Image with
      | Err _ => None
      | Ok extractedText =>
          if String.eqb (TrimSpace extractedText) "" then None
          else Some (TrimSpace extractedText)
      end
  end.

(** [generateFallbackResponse]. *)
Definition responses : gmap string (list string) :=
  {[ "friendly" :=
       [ "Thank you for reaching out about custom table covers! I'd be happy to help you with your order. Could you please share the dimensions and any specific requirements?";
         "Hi there! Thanks for your interest in our table covers. We create high-quality custom covers to fit perfectly. What size do you need?" ];
     "formal" :=
       [ "Thank you for your inquiry. We would be pleased to assist with your custom table cover requirements. Please provide dimensions and specifications.";
         "We acknowledge your request for custom table cover services. Kindly provide the measurements and material preferences." ];
     "short" :=
       [ "Thanks! Please send table dimensions for a quote.";
         "Hi! What size table cover do you need?" ] ]}.

Definition responseList (tone : string) : list string :=
  match responses !! tone with
  | Some l => l
  | None => default [] (responses !! "friendly")
  end.

Definition generateFallbackResponse (message tone : string) : string :=
  let l := responseList tone in
  nth (Z.to_nat (len message mod Z.of_nat (List.length l))) l "".

(** [createSystemPrompt] and [createPrompt]. *)
Definition nl : string := String "010" "".

Definition createSystemPrompt : string :=
  "You are a professional customer service assistant for CustomFlow, a premium custom table cover manufacturing business. " +:+ nl +:+ nl
  +:+ "Your role:" +:+ nl
  +:+ "- Provide helpful, accurate information about custom table covers" +:+ nl
  +:+ "- Maintain a professional yet approachable tone" +:+ nl
  +:+ "- Focus on dimensions, materials, delivery timelines, and customization options" +:+ nl
  +:+ "- Always prioritize customer satisfaction" +:+ nl
  +:+ "- Keep responses concise but informative" +:+ nl +:+ nl
  +:+ "Key information about our business:" +:+ nl
  +:+ "- We specialize in custom table covers for dining tables, office tables, conference tables" +:+ nl
  +:+ "- Materials: Various thicknesses (1mm, 1.5mm, 2mm, 3mm) and corner styles (sharp, rounded, custom)" +:+ nl
  +:+ "- Standard delivery: 3-5 business days" +:+ nl
  +:+ "- We serve customers through Amazon, WhatsApp, SMS, and phone orders" +:+ nl
  +:+ "- Premium quality and precise measurements are our specialties" +:+ nl
  +:+ "- We measure in inches" +:+ nl +:+ nl
  +:+ "Always be helpful and ensure customers have the information they need to place their order.".

Definition quote : string := String "034" "".

Definition createPrompt (customerMessage tone : string) : string :=
  let basePrompt := "Customer message: " +:+ quote +:+ customerMessage +:+ quote +:+ nl +:+ nl in
  if String.eqb tone "formal" then
    basePrompt +:+ "Generate a formal, professional response for business correspondence. Use proper business language while addressing table cover requirements."
  else if String.eqb tone "short" then
    basePrompt +:+ "Generate a brief, concise response under 50 words. Focus on essential information - dimensions, material, and delivery."
  else
    basePrompt +:+ "Generate a warm, friendly response while remaining professional. Show enthusiasm for helping with custom table cover needs.".

(** [GenerateAIResponse]. *)
Definition chatRequest (svc : AIService) (message tone : string) : OpenAIRequest := {|
  req_url := BaseURL svc;
  req_bearer := APIKey svc;
  req_model := Model svc;
  req_messages :=
    [ {| Role := "system";
         Content := [ {| Type_ := "text"; Text := Some createSystemPrompt; Image := None |} ] |};
      {| Role := "user";
         Content :=
           [ {| Type_ := "text"; Text := Some (createPrompt message tone); Image := None |} ] |} ];
  req_temperature := Temperature svc;
  req_max_tokens := MaxTokens svc
|}.

Definition GenerateAIResponse (svc : AIService) (w : World) (message tone : string)
  : result AIError string :=
  if String.eqb (APIKey svc) "" then Ok (generateFallbackResponse message tone)
  else
    match post w (chatRequest svc message tone) with
    | SendFailed => Err SendError
    | Replied status body =>
        if negb (status =? 200) then Err (APIStatus status)
        else match body with
             | None => Err UnmarshalError
             | Some openAIResp =>
                 match Choices openAIResp with
                 | [] => Err NoChoices
                 | content :: _ => Ok content
                 end
             end
    end.

(** [SetAIParameters]: each parameter is stored when it is in range. *)
Definition SetAIParameters (svc : AIService) (temperature : spec_float) (maxTokens : Z)
  : AIService :=
  let svc1 :=
    if SFleb f64_0 temperature && SFleb temperature f64_2
    then {| APIKey := APIKey svc; Model := Model svc; Temperature := temperature;
            MaxTokens := MaxTokens svc; BaseURL := BaseURL svc |}
    else svc in
  if (0 <? maxTokens) && (maxTokens <=? 4000)
  then {| APIKey := APIKey svc1; Model := Model svc1; Temperature := Temperature svc1;
          MaxTokens := maxTokens; BaseURL := BaseURL svc1 |}
  else svc1.

(** The two range tests of [SetAIParameters]. *)
Definition temperature_ok (t : spec_float) : bool := SFleb f64_0 t && SFleb t f64_2.
Definition maxTokens_ok (n : Z) : bool := (0 <? n) && (n <=? 4000).

(** The clamps the written specification speaks of: into [0,2] and
    into (0,4000] (as integers: [1,4000]). *)
Definition clampTemperature (t : spec_float) : spec_float :=
  if SFltb t f64_0 then f64_0 else if SFltb f64_2 t then f64_2 else t.

Definition clampMaxTokens (n : Z) : Z :=
  if n <? 1 then 1 else if 4000 <? n then 4000 else n.

End services.

(** ** [models/models.go] and the Flyway schema (V2, V3) *)

Module models.

Record OrderImage : Type := {
  img_ID : Z;
  img_OrderID : Z;
  Filename : string;
  Path : string;
  Size : Z;
  MimeType : string;
  img_CreatedAt : Z
}.

Record Order : Type := {
  ID : Z;
  OrderID : string;
  CustomerName : string;
  Source : string;
  PhoneNumber : string;
  Length : spec_float;
  Width : spec_float;
  Thickness : string;
  CornerStyle : string;
  Notes : string;
  SpecialNotes : string;
  Status : string;
  Images : list OrderImage;
  CreatedBy : Z;
  CreatedAt : Z;
  UpdatedAt : Z
}.

End models.

(** ** The database behind [config.DB]

    Two tables, their sequences, and at most one open transaction (the
    handlers are sequential).  Every call that reaches the database
    takes its outcome from a script of injected failures: [None] lets
    the statement run, [Some msg] makes it fail with [msg] and leave the
    tables as they are.  A failed statement leaves the transaction open;
    an engine that aborts the transaction at the first failed statement
    is the special case of a script in which every later statement, and
    the commit, fail as well. *)

Module config.
Import GoStrings models.

Record Tables : Type := {
  orders : list Order;
  order_images : list OrderImage
}.

Inductive TxState : Type :=
| NoTx
| TxOpen (working : Tables)
| TxBroken (e : string).      (* Begin failed: every later use reports the error *)

(** Which handle a statement is issued on: [config.DB] or [tx]. *)
Inductive Handle : Type := OnDB | OnTx.

Inductive Stmt : Type :=
| SBegin
| SCommit
| SRollback
| SQuery
| SCreateOrder (h : Handle) (order_id : string)
| SCreateImage (h : Handle) (owner : Z) (filename : string)
| SSaveOrder (h : Handle) (id : Z)
| SDeleteImages (h : Handle) (owner : Z)
| SDeleteOrder (h : Handle) (id : Z).

Record Conn : Type := {
  db : Tables;
  tx : TxState;
  orders_id_seq : Z;
  order_images_id_seq : Z;
  faults : list (option string);
  log : list Stmt
}.

(** A small state monad over the connection. *)
Definition M (A : Type) : Type := Conn -> A * Conn.

Definition ret {A} (a : A) : M A := fun c => (a, c).

Definition bind {A B} (m : M A) (k : A -> M B) : M B :=
  fun c => let '(a, c') := m c in k a c'.

Definition with_db (t : Tables) (c : Conn) : Conn :=
  {| db := t; tx := tx c; orders_id_seq := orders_id_seq c;
     order_images_id_seq := order_images_id_seq c; faults := faults c; log := log c |}.

Definition with_tx (s : TxState) (c : Conn) : Conn :=
  {| db := db c; tx := s; orders_id_seq := orders_id_seq c;
     order_images_id_seq := order_images_id_seq c; faults := faults c; log := log c |}.

Definition with_seqs (o i : Z) (c : Conn) : Conn :=
  {| db := db c; tx := tx c; orders_id_seq := o;
     order_images_id_seq := i; faults := faults c; log := log c |}.

Definition with_faults (f : list (option string)) (c : Conn) : Conn :=
  {| db := db c; tx := tx c; orders_id_seq := orders_id_seq c;
     order_images_id_seq := order_images_id_seq c; faults := f; log := log c |}.

Definition logged (s : Stmt) (c : Conn) : Conn :=
  {| db := db c; tx := tx c; orders_id_seq := orders_id_seq c;
     order_images_id_seq := order_images_id_seq c; faults := faults c;
     log := log c ++ [s] |}.

(** The outcome scripted for the next call; past the end of the script
    nothing fails. *)
Definition next_fault : M (option string) :=
  fun c => (hd None (faults c), with_faults (tl (faults c)) c).

(** The connection after a call that took its outcome from the script. *)
Definition step (s : Stmt) (c : Conn) : Conn := with_faults (tl (faults c)) (logged s c).

(** Schema constraints of V2 and V3. *)
Definition contains (slice : list string) (item : string) : bool :=
  existsb (fun s => String.eqb s item) slice.

Definition quoted (s : string) : string := String "034" s +:+ String "034" "".

Definition check_violation (name : string) : string :=
  "ERROR: new row for relation " +:+ quoted "orders" +:+ " violates check constraint "
  +:+ quoted name +:+ " (SQLSTATE 23514)".

Definition too_long : string := "ERROR: value too long for type character varying (SQLSTATE 22001)".

Definition unique_violation : string :=
  "ERROR: duplicate key value violates unique constraint " +:+ quoted "orders_order_id_key"
  +:+ " (SQLSTATE 23505)".

Definition fk_violation : string :=
  "ERROR: insert or update on table " +:+ quoted "order_images"
  +:+ " violates foreign key constraint " +:+ quoted "fk_order_images_order_id"
  +:+ " (SQLSTATE 23503)".

Definition invalid_transaction : string := "invalid transaction".

Definition positive_f64 (x : spec_float) : bool := SFltb (S754_zero false) x.

Definition order_row_check (o : Order) : option string :=
  if negb ((runeCount (OrderID o) <=? 100) && (runeCount (CustomerName o) <=? 255)
           && (runeCount (Source o) <=? 20) && (runeCount (PhoneNumber o) <=? 20)
           && (runeCount (Thickness o) <=? 10) && (runeCount (CornerStyle o) <=? 20)
           && (runeCount (Status o) <=? 20))
  then Some too_long
  else if negb (contains ["amazon"; "whatsapp"; "sms"; "call"] (Source o))
  then Some (check_violation "chk_orders_source")
  else if negb (contains ["sharp"; "rounded"; "custom"] (CornerStyle o))
  then Some (check_violation "chk_orders_corner_style")
  else if negb (contains ["new"; "in-progress"; "done"] (Status o))
  then Some (check_violation "chk_orders_status")
  else if negb (positive_f64 (Length o)) then Some (check_violation "chk_orders_length")
  else if negb (positive_f64 (Width o)) then Some (check_violation "chk_orders_width")
  else if negb (contains ["2mm"; "3mm"; "5mm"; "8mm"] (Thickness o))
  then Some (check_violation "chk_orders_thickness")
  else None.

Definition image_row_check (t : Tables) (i : OrderImage) : option string :=
  if negb ((runeCount (Filename i) <=? 255) && (runeCount (Path i) <=? 500)
           && (runeCount (MimeType i) <=? 100))
  then Some too_long
  else if negb (existsb (fun o => ID o =? img_OrderID i) (orders t))
  then Some fk_violation
  else None.

(** Table updates. *)
Definition insert_order (o : Order) (t : Tables) : result string Tables :=
  match order_row_check o with
  | Some e => Err e
  | None =>
      if existsb (fun o' => String.eqb (OrderID o') (OrderID o)) (orders t)
      then Err unique_violation
      else Ok {| orders := orders t ++ [o]; order_images := order_images t |}
  end.

(** [Save]: all columns of the row with this primary key are written;
    when there is no such row the row is inserted. *)
Definition save_order (o : Order) (t : Tables) : result string Tables :=
  match order_row_check o with
  | Some e => Err e
  | None =>
      if existsb (fun o' => String.eqb (OrderID o') (OrderID o) && negb (ID o' =? ID o))
           (orders t)
      then Err unique_violation
      else if existsb (fun o' => ID o' =? ID o) (orders t)
      then Ok {| orders := map (fun o' => if ID o' =? ID o then o else o') (orders t);
                 order_images := order_images t |}
      else Ok {| orders := orders t ++ [o]; order_images := order_images t |}
  end.

Definition insert_image (i : OrderImage) (t : Tables) : result string Tables :=
  match image_row_check t i with
  | Some e => Err e
  | None => Ok {| orders := orders t; order_images := order_images t ++ [i] |}
  end.

Definition delete_images (owner : Z) (t : Tables) : result string Tables :=
  Ok {| orders := orders t;
        order_images := List.filter (fun i => negb (img_OrderID i =? owner)) (order_images t) |}.

(** Deleting an order also deletes the image rows that reference it
    ([ON DELETE CASCADE]). *)
Definition delete_order (id : Z) (t : Tables) : result string Tables :=
  Ok {| orders := List.filter (fun o => negb (ID o =? id)) (orders t);
        order_images := List.filter (fun i => negb (img_OrderID i =? id)) (order_images t) |}.

(** Running a write on a handle: on [config.DB] it is committed at
    once, on [tx] it changes the working copy of the open transaction. *)
Definition exec (h : Handle) (s : Stmt) (f : Tables -> result string Tables)
  : M (option string) :=
  fun c0 =>
    let '(fl, c) := next_fault (logged s c0) in
    match fl with
    | Some e => (Some e, c)
    | None =>
        match h with
        | OnDB =>
            match f (db c) with
            | Ok t => (None, with_db t c)
            | Err e => (Some e, c)
            end
        | OnTx =>
            match tx c with
            | TxOpen t =>
                match f t with
                | Ok t' => (None, with_tx (TxOpen t') c)
                | Err e => (Some e, c)
                end
            | TxBroken e => (Some e, c)
            | NoTx => (Some invalid_transaction, c)
            end
        end
    end.

(** Reads go to [config.DB] and see the committed tables. *)
Definition query {A} (f : Tables -> A) : M (result string A) :=
  fun c0 =>
    let '(fl, c) := next_fault (logged SQuery c0) in
    match fl with
    | Some e => (Err e, c)
    | None => (Ok (f (db c)), c)
    end.

Definition Begin : M (option string) :=
  fun c0 =>
    let '(fl, c) := next_fault (logged SBegin c0) in
    match fl with
    | Some e => (Some e, with_tx (TxBroken e) c)
    | None => (None, with_tx (TxOpen (db c)) c)
    end.

Definition Commit : M (option string) :=
  fun c0 =>
    let '(fl, c) := next_fault (logged SCommit c0) in
    match tx c with
    | TxOpen t =>
        match fl with
        | Some e => (Some e, with_tx NoTx c)
        | None => (None, with_tx NoTx (with_db t c))
        end
    | TxBroken e => (Some e, with_tx NoTx c)
    | NoTx => (Some invalid_transaction, c)
    end.

Definition Rollback : M unit :=
  fun c => (tt, with_tx NoTx (logged SRollback c)).

(** [First]: the matching row with the smallest primary key. *)
Definition first_order (p : Order -> bool) (t : Tables) : option Order :=
  fold_left
    (fun best o =>
       if p o then
         match best with
         | Some b => if ID o <? ID b then Some o else best
         | None => Some o
         end
       else best)
    (orders t) None.

Definition images_of (owner : Z) (t : Tables) : list OrderImage :=
  List.filter (fun i => img_OrderID i =? owner) (order_images t).

(** [Create(&order)]: the key comes from the sequence, the timestamps
    from the clock; the struct is filled in on success. *)
Definition set_created (id now : Z) (o : Order) : Order :=
  {| ID := id; OrderID := OrderID o; CustomerName := CustomerName o; Source := Source o;
     PhoneNumber := PhoneNumber o; Length := Length o; Width := Width o;
     Thickness := Thickness o; CornerStyle := CornerStyle o; Notes := Notes o;
     SpecialNotes := SpecialNotes o; Status := Status o; Images := Images o;
     CreatedBy := CreatedBy o; CreatedAt := now; UpdatedAt := now |}.

Definition CreateOrderRow (h : Handle) (now : Z) (o : Order) : M (result string Order) :=
  fun c =>
    let id := orders_id_seq c + 1 in
    let o' := set_created id now o in
    let '(e, c') := exec h (SCreateOrder h (OrderID o)) (insert_order o') c in
    match e with
    | Some msg => (Err msg, c')
    | None => (Ok o', with_seqs id (order_images_id_seq c') c')
    end.

Definition set_image_created (id now : Z) (i : OrderImage) : OrderImage :=
  {| img_ID := id; img_OrderID := img_OrderID i; Filename := Filename i; Path := Path i;
     Size := Size i; MimeType := MimeType i; img_CreatedAt := now |}.

Definition CreateImageRow (h : Handle) (now : Z) (i : OrderImage) : M (option string) :=
  fun c =>
    let id := order_images_id_seq c + 1 in
    let '(e, c') :=
      exec h (SCreateImage h (img_OrderID i) (Filename i)) (insert_image (set_image_created id now i)) c in
    match e with
    | Some msg => (Some msg, c')
    | None => (None, with_seqs (orders_id_seq c') id c')
    end.

Definition set_updated (now : Z) (o : Order) : Order :=
  {| ID := ID o; OrderID := OrderID o; CustomerName := CustomerName o; Source := Source o;
     PhoneNumber := PhoneNumber o; Length := Length o; Width := Width o;
     Thickness := Thickness o; CornerStyle := CornerStyle o; Notes := Notes o;
     SpecialNotes := SpecialNotes o; Status := Status o; Images := Images o;
     CreatedBy := CreatedBy o; CreatedAt := CreatedAt o; UpdatedAt := now |}.

Definition SaveOrder (h : Handle) (now : Z) (o : Order) : M (result string Order) :=
  fun c =>
    let o' := set_updated now o in
    let '(e, c') := exec h (SSaveOrder h (ID o)) (save_order o') c in
    match e with
    | Some msg => (Err msg, c')
    | None => (Ok o', c')
    end.

Definition DeleteImagesWhere (h : Handle) (owner : Z) : M (option string) :=
  exec h (SDeleteImages h owner) (delete_images owner).

Definition DeleteOrderRow (h : Handle) (id : Z) : M (option string) :=
  exec h (SDeleteOrder h id) (delete_order id).

End config.

(** ** [controllers/orders.go] *)

Module controllers.
Import GoStrings models config.

Notation "x <- m ;; k" := (bind m (fun x => k))
  (at level 100, m at next level, right associativity).

(** The request-scoped collaborators: the clock and the upload
    directory ([os.Stat] of [./uploads/<name>]: the size of the file, or
    [None] when the call fails). *)
Record Env : Type := {
  now : Z;
  stat : string -> option Z
}.

Record CreateOrderRequest : Type := {
  r_OrderID : string;
  r_CustomerName : string;
  r_Source : string;
  r_PhoneNumber : string;
  r_Length : spec_float;
  r_Width : spec_float;
  r_Thickness : string;
  r_CornerStyle : string;
  r_Notes : string;
  r_SpecialNotes : string;
  r_ImageFiles : list string
}.

Record UpdateOrderStatusRequest : Type := { r_Status : string }.

(** A request body: either it does not decode, or it decodes to [A]. *)
Inductive JSONBody (A : Type) : Type :=
| Malformed (err : string)
| Decoded (a : A).
Arguments Malformed {A} err.
Arguments Decoded {A} a.

(** The [binding:"..."] tags, checked field by field in declaration
    order; every failing field is reported with its first failing tag. *)
Definition tag_error (type field tag : string) : string :=
  "Key: '" +:+ type +:+ "." +:+ field +:+ "' Error:Field validation for '" +:+ field
  +:+ "' failed on the '" +:+ tag +:+ "' tag".

Definition is_zero_f64 (x : spec_float) : bool :=
  match x with S754_zero _ => true | _ => false end.

Definition binding_errors (req : CreateOrderRequest) : list string :=
  let t := "CreateOrderRequest" in
  (if String.eqb (r_OrderID req) "" then [tag_error t "OrderID" "required"]
   else if runeCount (r_OrderID req) <? 3 then [tag_error t "OrderID" "min"]
   else if 100 <? runeCount (r_OrderID req) then [tag_error t "OrderID" "max"]
   else [])
  ++ (if is_zero_f64 (r_Length req) then [tag_error t "Length" "required"]
      else if negb (positive_f64 (r_Length req)) then [tag_error t "Length" "gt"]
      else [])
  ++ (if is_zero_f64 (r_Width req) then [tag_error t "Width" "required"]
      else if negb (positive_f64 (r_Width req)) then [tag_error t "Width" "gt"]
      else [])
  ++ (if String.eqb (r_Thickness req) "" then [tag_error t "Thickness" "required"] else [])
  ++ (if String.eqb (r_CornerStyle req) "" then [tag_error t "CornerStyle" "required"] else []).

Definition ShouldBindJSON (b : JSONBody CreateOrderRequest) : result string CreateOrderRequest :=
  match b with
  | Malformed e => Err e
  | Decoded req =>
      match binding_errors req with
      | [] => Ok req
      | errs => Err (Join errs (String "010" ""))
      end
  end.

Definition ShouldBindStatusJSON (b : JSONBody UpdateOrderStatusRequest)
  : result string UpdateOrderStatusRequest :=
  match b with
  | Malformed e => Err e
  | Decoded req =>
      if String.eqb (r_Status req) ""
      then Err (tag_error "UpdateOrderStatusRequest" "Status" "required")
      else Ok req
  end.

(** Responses: the status code and the JSON body. *)
Inductive Body : Type :=
| JError (error : string)
| JConflict (error : string) (id : Z) (order_id : string) (created_at : Z) (status : string)
| JOrder (order : Order)
| JCreated (order : Order) (message : string)
| JMessage (message : string).

Record Response : Type := { code : Z; body : Body }.

Definition StatusOK : Z := 200.
Definition StatusCreated : Z := 201.
Definition StatusBadRequest : Z := 400.
Definition StatusNotFound : Z := 404.
Definition StatusConflict : Z := 409.
Definition StatusInternalServerError : Z := 500.

Definition JSON (c : Z) (b : Body) : M Response := ret {| code := c; body := b |}.

(** [getMimeType]. *)
Definition mimeTypes : gmap string string :=
  {[ ".jpg" := "image/jpeg"; ".jpeg" := "image/jpeg"; ".png" := "image/png";
     ".gif" := "image/gif"; ".webp" := "image/webp"; ".bmp" := "image/bmp";
     ".svg" := "image/svg+xml" ]}.

Definition getMimeType (ext : string) : string :=
  match mimeTypes !! ToLower ext with
  | Some mimeType => mimeType
  | None => "application/octet-stream"
  end.

(** The pagination parameters of [GetOrders]; a query parameter is
    [None] when the URL does not have it ([c.DefaultQuery]). *)
Definition DefaultQuery (q : option string) (defaultValue : string) : string :=
  match q with Some v => v | None => defaultValue end.

Definition GetOrders_page (pageQ : option string) : Z :=
  match Atoi (DefaultQuery pageQ "1") with
  | None => 1
  | Some page => if page <? 1 then 1 else page
  end.

Definition GetOrders_limit (limitQ : option string) : Z :=
  match Atoi (DefaultQuery limitQ "20") with
  | None => 20
  | Some limit => if (limit <? 1) || (100 <? limit) then 20 else limit
  end.

Definition GetOrders_offset (pageQ limitQ : option string) : Z :=
  wrap ((GetOrders_page pageQ - 1) * GetOrders_limit limitQ).

(** The clamp of the written specification: into [1,100]. *)
Definition clampLimit (n : Z) : Z :=
  if n <? 1 then 1 else if 100 <? n then 100 else n.

(** Loading an order's images into the struct ([Find(&order.Images)]);
    a failed query leaves the field as it is. *)
Definition set_images (imgs : list OrderImage) (o : Order) : Order :=
  {| ID := ID o; OrderID := OrderID o; CustomerName := CustomerName o; Source := Source o;
     PhoneNumber := PhoneNumber o; Length := Length o; Width := Width o;
     Thickness := Thickness o; CornerStyle := CornerStyle o; Notes := Notes o;
     SpecialNotes := SpecialNotes o; Status := Status o; Images := imgs;
     CreatedBy := CreatedBy o; CreatedAt := CreatedAt o; UpdatedAt := UpdatedAt o |}.

Definition load_images (o : Order) : M Order :=
  r <- query (images_of (ID o)) ;;
  match r with
  | Ok imgs => ret (set_images imgs o)
  | Err _ => ret o
  end.

(** [GetOrder]. *)
Definition GetOrder (id : string) : M Response :=
  match Atoi id with
  | None => JSON StatusBadRequest (JError "Invalid order ID format")
  | Some orderID =>
      r <- query (first_order (fun o => ID o =? orderID)) ;;
      match r with
      | Err _ => JSON StatusInternalServerError (JError "Database error")
      | Ok None => JSON StatusNotFound (JError "Order not found")
      | Ok (Some order) =>
          order <- load_images order ;;
          JSON StatusOK (JOrder order)
      end
  end.

(** [CreateOrder]: the image rows, in the transaction. *)
Definition new_image (env : Env) (owner : Z) (filename : string) : OrderImage :=
  {| img_ID := 0; img_OrderID := owner; Filename := filename;
     Path := "/uploads/" +:+ filename;
     Size := match stat env filename with Some size => size | None => 0 end;
     MimeType := getMimeType (Ext filename);
     img_CreatedAt := 0 |}.

Fixpoint create_images (env : Env) (owner : Z) (files : list string) : M unit :=
  match files with
  | [] => ret tt
  | filename :: rest =>
      _ <- CreateImageRow OnTx (now env) (new_image env owner filename) ;;
      (* Continue with order creation even if image fails *)
      create_images env owner rest
  end.

Definition validImageFiles (env : Env) (files : list string) : list string :=
  List.filter (fun imageFile => match stat env imageFile with Some _ => true | None => false end)
    files.

Definition new_order (req : CreateOrderRequest) : Order :=
  {| ID := 0;
     OrderID := r_OrderID req;
     CustomerName := TrimSpace (r_CustomerName req);
     Source := r_Source req;
     PhoneNumber := TrimSpace (r_PhoneNumber req);
     Length := r_Length req;
     Width := r_Width req;
     Thickness := r_Thickness req;
     CornerStyle := r_CornerStyle req;
     Notes := TrimSpace (r_Notes req);
     SpecialNotes := TrimSpace (r_SpecialNotes req);
     Status := "new";
     Images := [];
     CreatedBy := 1;
     CreatedAt := 0;
     UpdatedAt := 0 |}.

(** The request after the defaults and the trimmed identifier. *)
Definition normalize (req : CreateOrderRequest) : CreateOrderRequest :=
  {| r_OrderID := TrimSpace (r_OrderID req);
     r_CustomerName := r_CustomerName req;
     r_Source := if String.eqb (r_Source req) "" then "amazon" else r_Source req;
     r_PhoneNumber := r_PhoneNumber req;
     r_Length := r_Length req;
     r_Width := r_Width req;
     r_Thickness := if String.eqb (r_Thickness req) "" then "3mm" else r_Thickness req;
     r_CornerStyle := if String.eqb (r_CornerStyle req) "" then "sharp" else r_CornerStyle req;
     r_Notes := r_Notes req;
     r_SpecialNotes := r_SpecialNotes req;
     r_ImageFiles := r_ImageFiles req |}.

Definition CreateOrder (env : Env) (b : JSONBody CreateOrderRequest) : M Response :=
  match ShouldBindJSON b with
  | Err e => JSON StatusBadRequest (JError ("Validation failed: " +:+ e))
  | Ok req0 =>
      let req := normalize req0 in
      if negb (contains ["amazon"; "whatsapp"; "sms"; "call"] (r_Source req))
      then JSON StatusBadRequest (JError "Invalid source")
      else if negb (contains ["2mm"; "3mm"; "5mm"; "8mm"] (r_Thickness req))
      then JSON StatusBadRequest (JError "Invalid thickness")
      else if negb (contains ["sharp"; "rounded"; "custom"] (r_CornerStyle req))
      then JSON StatusBadRequest (JError "Invalid corner style")
      else if String.eqb (r_OrderID req) ""
      then JSON StatusBadRequest (JError "Order ID cannot be empty")
      else
        (* Check for duplicate order ID *)
        found <- query (first_order (fun o => String.eqb (OrderID o) (r_OrderID req))) ;;
        match found with
        | Ok (Some existingOrder) =>
            JSON StatusConflict
              (JConflict ("Order ID '" +:+ r_OrderID req +:+ "' already exists")
                 (ID existingOrder) (OrderID existingOrder) (CreatedAt existingOrder)
                 (Status existingOrder))
        | Err _ =>
            JSON StatusInternalServerError (JError "Database error checking order ID")
        | Ok None =>
            let files := validImageFiles env (r_ImageFiles req) in
            let order := new_order req in
            (* Start transaction *)
            e <- Begin ;;
            match e with
            | Some _ => JSON StatusInternalServerError (JError "Transaction error")
            | None =>
                created <- CreateOrderRow OnTx (now env) order ;;
                match created with
                | Err err =>
                    _ <- Rollback ;;
                    if Contains (ToLower err) "duplicate" || Contains (ToLower err) "unique"
                    then JSON StatusConflict (JError "Order ID already exists")
                    else JSON StatusInternalServerError
                           (JError ("Failed to create order: " +:+ err))
                | Ok order =>
                    _ <- create_images env (ID order) files ;;
                    e <- Commit ;;
                    match e with
                    | Some _ =>
                        JSON StatusInternalServerError (JError "Failed to save order")
                    | None =>
                        (* Reload order with images *)
                        r <- query (first_order
                                      (fun o => String.eqb (OrderID o) (OrderID order)
                                                && (ID o =? ID order))) ;;
                        let order := match r with Ok (Some o) => o | _ => order end in
                        order <- load_images order ;;
                        JSON StatusCreated (JCreated order "Order created successfully")
                    end
                end
            end
        end
  end.

(** [UpdateOrder]. *)
Definition apply_update (req : CreateOrderRequest) (o : Order) : Order :=
  {| ID := ID o;
     OrderID := TrimSpace (r_OrderID req);
     CustomerName := TrimSpace (r_CustomerName req);
     Source := r_Source req;
     PhoneNumber := TrimSpace (r_PhoneNumber req);
     Length := r_Length req;
     Width := r_Width req;
     Thickness := r_Thickness req;
     CornerStyle := r_CornerStyle req;
     Notes := TrimSpace (r_Notes req);
     SpecialNotes := TrimSpace (r_SpecialNotes req);
     Status := Status o;
     Images := Images o;
     CreatedBy := CreatedBy o;
     CreatedAt := CreatedAt o;
     UpdatedAt := UpdatedAt o |}.

Fixpoint replace_images (env : Env) (owner : Z) (files : list string) : M unit :=
  match files with
  | [] => ret tt
  | filename :: rest =>
      match stat env filename with
      | Some _ =>
          _ <- CreateImageRow OnTx (now env) (new_image env owner filename) ;;
          replace_images env owner rest
      | None => replace_images env owner rest
      end
  end.

(** The transaction of [UpdateOrder]: from [config.DB.Begin()] to the
    response. *)
Definition UpdateOrder_tx (env : Env) (req : CreateOrderRequest) (order : Order)
  : M Response :=
  _ <- Begin ;;
  saved <- SaveOrder OnTx (now env) (apply_update req order) ;;
  match saved with
  | Err _ =>
      _ <- Rollback ;;
      JSON StatusInternalServerError (JError "Failed to update order")
  | Ok order =>
      (* Update images if provided *)
      _ <-
        (if 0 <? Z.of_nat (List.length (r_ImageFiles req))
         then
           _ <- DeleteImagesWhere OnTx (ID order) ;;
           replace_images env (ID order) (r_ImageFiles req)
         else ret tt) ;;
      e <- Commit ;;
      match e with
      | Some _ =>
          JSON StatusInternalServerError (JError "Failed to save changes")
      | None =>
          order <- load_images order ;;
          JSON StatusOK (JOrder order)
      end
  end.

Definition UpdateOrder (env : Env) (id : string) (b : JSONBody CreateOrderRequest)
  : M Response :=
  match Atoi id with
  | None => JSON StatusBadRequest (JError "Invalid order ID format")
  | Some orderID =>
      r <- query (first_order (fun o => ID o =? orderID)) ;;
      match r with
      | Err _ => JSON StatusInternalServerError (JError "Database error")
      | Ok None => JSON StatusNotFound (JError "Order not found")
      | Ok (Some order) =>
          match ShouldBindJSON b with
          | Err e => JSON StatusBadRequest (JError ("Validation failed: " +:+ e))
          | Ok req =>
              (* Check for duplicate order ID if changed *)
              dup <-
                (if negb (String.eqb (r_OrderID req) (OrderID order))
                 then
                   found <- query (first_order
                                     (fun o => String.eqb (OrderID o) (r_OrderID req)
                                               && negb (ID o =? ID order))) ;;
                   ret (match found with Ok (Some _) => true | _ => false end)
                 else ret false) ;;
              if dup : bool
              then JSON StatusConflict
                     (JError ("Order ID already exists: " +:+ r_OrderID req))
              else UpdateOrder_tx env req order
          end
      end
  end.

(** [UpdateOrderStatus]. *)
Definition set_status (s : string) (o : Order) : Order :=
  {| ID := ID o; OrderID := OrderID o; CustomerName := CustomerName o; Source := Source o;
     PhoneNumber := PhoneNumber o; Length := Length o; Width := Width o;
     Thickness := Thickness o; CornerStyle := CornerStyle o; Notes := Notes o;
     SpecialNotes := SpecialNotes o; Status := s; Images := Images o;
     CreatedBy := CreatedBy o; CreatedAt := CreatedAt o; UpdatedAt := UpdatedAt o |}.

Definition validStatuses : list string := ["new"; "in-progress"; "done"].

Definition UpdateOrderStatus (env : Env) (id : string)
    (b : JSONBody UpdateOrderStatusRequest) : M Response :=
  match Atoi id with
  | None => JSON StatusBadRequest (JError "Invalid order ID format")
  | Some orderID =>
      match ShouldBindStatusJSON b with
      | Err e => JSON StatusBadRequest (JError e)
      | Ok req =>
          if negb (contains validStatuses (r_Status req))
          then JSON StatusBadRequest (JError "Invalid status")
          else
            r <- query (first_order (fun o => ID o =? orderID)) ;;
            match r with
            | Err _ => JSON StatusInternalServerError (JError "Database error")
            | Ok None => JSON StatusNotFound (JError "Order not found")
            | Ok (Some order) =>
                saved <- SaveOrder OnDB (now env) (set_status (r_Status req) order) ;;
                match saved with
                | Err _ =>
                    JSON StatusInternalServerError (JError "Failed to update status")
                | Ok order => JSON StatusOK (JOrder order)
                end
            end
      end
  end.

(** [DeleteOrder]. *)
Definition DeleteOrder (id : string) : M Response :=
  match Atoi id with
  | None => JSON StatusBadRequest (JError "Invalid order ID format")
  | Some orderID =>
      r <- query (first_order (fun o => ID o =? orderID)) ;;
      match r with
      | Err _ => JSON StatusInternalServerError (JError "Database error")
      | Ok None => JSON StatusNotFound (JError "Order not found")
      | Ok (Some order) =>
          _ <- Begin ;;
          (* Delete images first (foreign key constraint) *)
          e <- DeleteImagesWhere OnTx (ID order) ;;
          match e with
          | Some _ =>
              _ <- Rollback ;;
              JSON StatusInternalServerError (JError "Failed to delete order images")
          | None =>
              e <- DeleteOrderRow OnTx (ID order) ;;
              match e with
              | Some _ =>
                  _ <- Rollback ;;
                  JSON StatusInternalServerError (JError "Failed to delete order")
              | None =>
                  e <- Commit ;;
                  match e with
                  | Some _ =>
                      JSON StatusInternalServerError (JError "Failed to complete deletion")
                  | None => JSON StatusOK (JMessage "Order deleted successfully")
                  end
              end
          end
      end
  end.

(** The statements an update issues for the image rows. *)
Definition image_stmts (owner : Z) (supplied : list string) (files : list string) : list Stmt :=
  if 0 <? Z.of_nat (List.length supplied)
  then SDeleteImages OnTx owner :: map (SCreateImage OnTx owner) files
  else [].

(** A response that refuses the request. *)
Definition rejected (resp : Response) : Prop :=
  (code resp = 400 \/ code resp = 409 \/ code resp = 500)
  /\ match body resp with JError _ | JConflict _ _ _ _ _ => True | _ => False end.

End controllers.

(** ** Properties of the specification as stated, and sample data *)

Module fixtures.
Import GoStrings models config controllers.

(** The rows satisfy the schema: every row passes the column checks and
    the external identifier is unique. *)
Definition schema_ok (t : Tables) : Prop :=
  (forall o, In o (orders t) -> order_row_check o = None)
  /\ (forall x y, In x (orders t) -> In y (orders t) -> OrderID x = OrderID y -> ID x = ID y).


(** "Replaced by the supplied list": after a successful update with a
    non-empty list, the order's image rows are those of the list. *)
Definition update_replaces_with_supplied (env : Env) (id : string) (orderID : Z)
    (req : CreateOrderRequest) (c : Conn) : Prop :=
  let r := UpdateOrder env id (Decoded req) c in
  r_ImageFiles req <> [] -> code (fst r) = 200 ->
  map Filename (images_of orderID (db (snd r))) = r_ImageFiles req.

(** binary64 constants: 40 and 30. *)
Definition f64_40 : spec_float := S754_finite false 5629499534213120 (-47).
Definition f64_30 : spec_float := S754_finite false 8444249301319680 (-48).

(** The order of the example scenario, with two image files. *)
Definition req_ORD100 : CreateOrderRequest := {|
  r_OrderID := " ORD-100 "; r_CustomerName := "Asha"; r_Source := "amazon";
  r_PhoneNumber := ""; r_Length := f64_40; r_Width := f64_30; r_Thickness := "3mm";
  r_CornerStyle := "sharp"; r_Notes := ""; r_SpecialNotes := "";
  r_ImageFiles := ["a.png"; "b.jpg"] |}.

(** The same request with another list of image files. *)
Definition with_files (files : list string) (req : CreateOrderRequest) : CreateOrderRequest := {|
  r_OrderID := r_OrderID req; r_CustomerName := r_CustomerName req; r_Source := r_Source req;
  r_PhoneNumber := r_PhoneNumber req; r_Length := r_Length req; r_Width := r_Width req;
  r_Thickness := r_Thickness req; r_CornerStyle := r_CornerStyle req; r_Notes := r_Notes req;
  r_SpecialNotes := r_SpecialNotes req; r_ImageFiles := files |}.

(** An upload directory that holds a.png, b.jpg and c.webp. *)
Definition env_uploads : Env := {|
  now := 1700000000;
  stat := fun name =>
    if String.eqb name "a.png" then Some 2048
    else if String.eqb name "b.jpg" then Some 4096
    else if String.eqb name "c.webp" then Some 512
    else None
|}.

(** An empty database on which nothing is scripted to fail. *)
Definition conn_empty : Conn := {|
  db := {| orders := []; order_images := [] |}; tx := NoTx;
  orders_id_seq := 0; order_images_id_seq := 0; faults := []; log := [] |}.


(** The database after order ORD-100 was created with its two images. *)
Definition conn_ORD100 : Conn :=
  with_faults [] (snd (CreateOrder env_uploads (Decoded req_ORD100) conn_empty)).

(** The OCR operation as the specification states it: for a non-empty
    list the result is the texts of the images that yield one, in
    input order, joined by the separator, and it is the no-text error
    when no image yields text. *)
Definition extract_as_stated (svc : services.AIService) (w : services.World)
    (images : list string) : Prop :=
  images <> [] ->
  match omap (services.imageText svc w) images with
  | [] => fst (services.ExtractTextFromImages svc w images)
          = Err (services.NoTextExtracted (Z.of_nat (List.length images)))
  | texts => fst (services.ExtractTextFromImages svc w images)
             = Ok (Join texts services.separator)
  end.

(** A world in which no upload can be read. *)
Definition w_unreadable : services.World := {|
  services.readFile := fun _ => None;
  services.post := fun _ => services.SendFailed
|}.

(** A world in which every upload can be read and the endpoint answers
    every request with one line of text. *)
Definition w_ok : services.World := {|
  services.readFile := fun _ => Some "png-bytes";
  services.post := fun _ =>
    services.Replied 200
      (Some {| services.Choices := ["Table 40 x 30"]; services.Error := None |})
|}.

(** A configuration with a credential. *)
Definition svc_key : services.AIService := {|
  services.APIKey := "sk-test"; services.Model := "gpt-4o";
  services.Temperature := services.f64_0_7; services.MaxTokens := 1000;
  services.BaseURL := "https://api.openai.com/v1/chat/completions" |}.

(** binary64 constant: 3. *)
Definition f64_3 : spec_float := S754_finite false 6755399441055744 (-51).

End fixtures.

(** ** [controllers/orders.go]: the upload handler *)

Module upload.
Import GoStrings controllers.

(** [fmt.Sprintf("%d", n)]. *)
Definition Itoa (n : Z) : string := DecimalString.NilZero.string_of_int (Z.to_int n).

(** [isValidImageType]. *)
Definition validExts : list string :=
  [".jpg"; ".jpeg"; ".png"; ".gif"; ".webp"; ".bmp"; ".svg"].

Definition isValidImageType (filename : string) : bool :=
  let ext := ToLower (Ext filename) in
  existsb (fun validExt => String.eqb ext validExt) validExts.

(** One part of the multipart form: the client's file name and the
    size of the part. *)
Record FileHeader : Type := {
  fh_Filename : string;
  fh_Size : Z
}.

(** The request after [ParseMultipartForm(32 << 20)]: it fails, or gives
    the parts of the field [files]. *)
Inductive MultipartForm : Type :=
| FormTooLarge
| Form (files : list FileHeader).

(** The collaborators of an upload: creating the directory, the
    "<uuid without dashes>_<unix time>" stem drawn for the i-th part,
    and saving a part under a path. *)
Record UploadEnv : Type := {
  mkdirAll : bool;
  stem : nat -> string;
  saveUploadedFile : FileHeader -> string -> bool
}.

(** One entry of the [files] array of the answer. *)
Record Uploaded : Type := {
  u_filename : string;
  u_original_name : string;
  u_size : Z;
  u_url : string;
  u_mime_type : string
}.

Inductive UploadBody : Type :=
| UError (error : string)
| UReport (message : string) (uploaded_count failed_count : Z)
    (files : list Uploaded) (failed_files : list string).

Record UploadResponse : Type := { u_code : Z; u_body : UploadBody }.

Definition maxFileSize : Z := 10 * 2 ^ 20.

(** The body of [for _, fileHeader := range files]: the entries and the
    failures gathered so far. *)
Fixpoint upload_loop (env : UploadEnv) (i : nat) (files : list FileHeader)
    (uploadedFiles : list Uploaded) (failedFiles : list string)
  : list Uploaded * list string :=
  match files with
  | [] => (uploadedFiles, failedFiles)
  | fileHeader :: rest =>
      if negb (isValidImageType (fh_Filename fileHeader))
      then upload_loop env (S i) rest uploadedFiles
             (failedFiles ++ [fh_Filename fileHeader +:+ " (invalid type)"])
      else if maxFileSize <? fh_Size fileHeader
      then upload_loop env (S i) rest uploadedFiles
             (failedFiles ++ [fh_Filename fileHeader +:+ " (too large)"])
      else
        let ext := Ext (fh_Filename fileHeader) in
        let filename := stem env i +:+ ext in
        let filePath := "uploads/" +:+ filename in
        if negb (saveUploadedFile env fileHeader filePath)
        then upload_loop env (S i) rest uploadedFiles
               (failedFiles ++ [fh_Filename fileHeader +:+ " (save failed)"])
        else upload_loop env (S i) rest
               (uploadedFiles ++
                  [ {| u_filename := filename;
                       u_original_name := fh_Filename fileHeader;
                       u_size := fh_Size fileHeader;
                       u_url := "/uploads/" +:+ filename;
                       u_mime_type := getMimeType ext |} ])
               failedFiles
  end.

(** [UploadFiles]. *)
Definition UploadFiles (env : UploadEnv) (form : MultipartForm) : UploadResponse :=
  match form with
  | FormTooLarge =>
      {| u_code := StatusBadRequest; u_body := UError "File too large (max 32MB)" |}
  | Form files =>
      if Z.of_nat (List.length files) =? 0
      then {| u_code := StatusBadRequest; u_body := UError "No files uploaded" |}
      else if negb (mkdirAll env)
      then {| u_code := StatusInternalServerError;
              u_body := UError "Failed to create uploads directory" |}
      else
        let '(uploadedFiles, failedFiles) := upload_loop env 0 files [] [] in
        let response :=
          UReport ("Processed " +:+ Itoa (Z.of_nat (List.length files)) +:+ " files")
            (Z.of_nat (List.length uploadedFiles)) (Z.of_nat (List.length failedFiles))
            uploadedFiles failedFiles in
        if Z.of_nat (List.length uploadedFiles) =? 0
        then {| u_code := StatusBadRequest; u_body := response |}
        else {| u_code := StatusOK; u_body := response |}
  end.

End upload.

(** ** [controllers/orders.go]: the list handler *)

Module listing.
Import GoStrings models config controllers.

(** What the engine decides: the match of [value ILIKE pattern], and
    the order of rows under [ORDER BY created_at DESC] (rows created at
    the same instant come in an order the engine chooses). *)
Record Engine : Type := {
  ilike : string -> string -> bool;
  created_at_desc : list Order -> list Order
}.

(** The query string; a parameter is [None] when the URL lacks it. *)
Record ListQuery : Type := {
  q_status : option string;
  q_search : option string;
  q_page : option string;
  q_limit : option string
}.

Record Pagination : Type := {
  total : Z;
  page : Z;
  limit : Z;
  pages : Z;
  has_next : bool;
  has_prev : bool
}.

Inductive ListBody : Type :=
| LError (error : string)
| LOrders (orders : list Order) (pagination : Pagination).

Record ListResponse : Type := { l_code : Z; l_body : ListBody }.

(** [strings.ReplaceAll(s, "'", "''")]. *)
Fixpoint doubleQuotes (s : string) : string :=
  match s with
  | EmptyString => EmptyString
  | String c r =>
      if Ascii.eqb c "'" then String c (String c (doubleQuotes r))
      else String c (doubleQuotes r)
  end.

(** The [Where] clauses shared by the list query and the count query. *)
Definition selected (eng : Engine) (status search : string) (o : Order) : bool :=
  (if String.eqb status "" then true else String.eqb (Status o) status)
  && (if String.eqb search "" then true
      else ilike eng (OrderID o) ("%" +:+ search +:+ "%")
           || ilike eng (CustomerName o) ("%" +:+ search +:+ "%")).

(** A call that reaches the database without touching the tables
    ([config.DB.DB()], [sqlDB.Ping()]). *)
Definition Ping : M (option string) := next_fault.

(** The rows the list query returns, with the images [Preload] attaches. *)
Definition find_page (eng : Engine) (status search : string) (offset limit : Z)
    (t : Tables) : list Order :=
  map (fun o => set_images (images_of (ID o) t) o)
    (firstn (Z.to_nat limit)
       (skipn (Z.to_nat offset)
          (created_at_desc eng (List.filter (selected eng status search) (orders t))))).

Definition count_rows (eng : Engine) (status search : string) (t : Tables) : Z :=
  Z.of_nat (List.length (List.filter (selected eng status search) (orders t))).

(** [for i := range orders]: the images of each order are loaded again. *)
Fixpoint load_all (orders : list Order) : M (list Order) :=
  match orders with
  | [] => ret []
  | o :: rest =>
      o' <- load_images o ;;
      rest' <- load_all rest ;;
      ret (o' :: rest')
  end.

Definition respond (c : Z) (b : ListBody) : M ListResponse :=
  ret {| l_code := c; l_body := b |}.

Definition pagination_of (total page limit : Z) : Pagination :=
  {| total := total;
     page := page;
     limit := limit;
     pages := Z.quot (total + limit - 1) limit;
     has_next := page <? Z.quot (total + limit - 1) limit;
     has_prev := 1 <? page |}.

(** [GetOrders]. *)
Definition GetOrders (eng : Engine) (q : ListQuery) : M ListResponse :=
  e <- Ping ;;
  match e with
  | Some _ => respond StatusInternalServerError (LError "Database connection error")
  | None =>
      e <- Ping ;;
      match e with
      | Some _ => respond StatusInternalServerError (LError "Database not responding")
      | None =>
          let status := TrimSpace (DefaultQuery (q_status q) "") in
          if negb (String.eqb status "") && negb (contains validStatuses status)
          then respond StatusBadRequest (LError "Invalid status filter")
          else
            let search0 := TrimSpace (DefaultQuery (q_search q) "") in
            let search := if String.eqb search0 "" then search0 else doubleQuotes search0 in
            let page := GetOrders_page (q_page q) in
            let limit := GetOrders_limit (q_limit q) in
            let offset := GetOrders_offset (q_page q) (q_limit q) in
            counted <- query (count_rows eng status search) ;;
            match counted with
            | Err _ => respond StatusInternalServerError (LError "Failed to count orders")
            | Ok total =>
                found <- query (find_page eng status search offset limit) ;;
                match found with
                | Err err =>
                    respond StatusInternalServerError
                      (LError ("Failed to fetch orders: " +:+ err))
                | Ok orders =>
                    orders <- load_all orders ;;
                    respond StatusOK (LOrders orders (pagination_of total page limit))
                end
            end
      end
  end.

End listing.

(** ** [main.go]: the start-up check of the tables *)

Module startup.

Definition requiredTables : list string :=
  ["users"; "orders"; "order_images"; "ai_responses"].

Inductive StartupError : Type :=
| CheckFailed (tableName : string) (err : string)   (* "failed to check table %s: %v" *)
| TableMissing (tableName : string).                (* "table '%s' does not exist ..." *)

(** [verifyRequiredTables]; the argument answers the
    [information_schema] query for one table. *)
Fixpoint verify_tables (table_exists : string -> result string bool)
    (tables : list string) : option StartupError :=
  match tables with
  | [] => None
  | tableName :: rest =>
      match table_exists tableName with
      | Err err => Some (CheckFailed tableName err)
      | Ok false => Some (TableMissing tableName)
      | Ok true => verify_tables table_exists rest
      end
  end.

Definition verifyRequiredTables (table_exists : string -> result string bool)
  : option StartupError :=
  verify_tables table_exists requiredTables.

End startup.

(** ** Consistency of the tables, and what a run of a handler keeps *)

Module integrity.
Import GoStrings models config controllers fixtures.

(** Every image row references a stored order. *)
Definition refs_ok (t : Tables) : Prop :=
  forall i, In i (order_images t) -> exists o, In o (orders t) /\ ID o = img_OrderID i.

Definition consistent (t : Tables) : Prop := schema_ok t /\ refs_ok t.

(** The committed tables are consistent, and so is the working copy of
    an open transaction. *)
Definition conn_ok (c : Conn) : Prop :=
  consistent (db c)
  /\ match tx c with
     | TxOpen t => consistent t
     | _ => True
     end.

Definition preserves {A} (m : M A) : Prop :=
  forall c a c', m c = (a, c') -> conn_ok c -> conn_ok c'.

Definition readonly {A} (m : M A) : Prop :=
  forall c a c', m c = (a, c') -> db c' = db c /\ tx c' = tx c.

(** The sequence of order keys is ahead of every stored key. *)
Definition seq_ahead (c : Conn) : Prop :=
  Forall (fun o => ID o <= orders_id_seq c) (orders (db c)).

(** The files read and the requests sent, in a trace of the gateway. *)
Definition reads (tr : list services.Event) : list string :=
  omap (fun e => match e with services.EvRead p => Some p | _ => None end) tr.

Definition posts (tr : list services.Event) : list services.OpenAIRequest :=
  omap (fun e => match e with services.EvPost r => Some r | _ => None end) tr.

(** binary64: not a number. *)
Definition f64_nan : spec_float := S754_nan.

(** A request whose source is outside the enumeration. *)
Definition req_bad_source : CreateOrderRequest := {|
  r_OrderID := "ORD-100"; r_CustomerName := "Asha"; r_Source := "email";
  r_PhoneNumber := ""; r_Length := f64_40; r_Width := f64_30; r_Thickness := "3mm";
  r_CornerStyle := "sharp"; r_Notes := ""; r_SpecialNotes := "";
  r_ImageFiles := [] |}.

(** An engine that matches by containment of the pattern's core and
    keeps the table order. *)
Definition eng_plain : listing.Engine := {|
  listing.ilike := fun value pattern =>
    Contains (ToLower ("%" +:+ value +:+ "%")) (ToLower pattern);
  listing.created_at_desc := fun l => l
|}.

(** An upload in which every part can be saved. *)
Definition upload_env_ok : upload.UploadEnv := {|
  upload.mkdirAll := true;
  upload.stem := fun i => "0100000000000000_" +:+ upload.Itoa (1700000000 + Z.of_nat i);
  upload.saveUploadedFile := fun _ _ => true
|}.

End integrity.

(** * Facts *)

(** ** The string helpers on sample inputs *)

Example TrimSpace_ex : GoStrings.TrimSpace "  ORD-100 " = "ORD-100".
Proof. reflexivity. Qed.

Example Ext_ex : GoStrings.Ext "shot.v2.PNG" = ".PNG".
Proof. reflexivity. Qed.

Example Atoi_ex :
  GoStrings.Atoi "150" = Some 150 /\ GoStrings.Atoi "-3" = Some (-3)
  /\ GoStrings.Atoi "" = None /\ GoStrings.Atoi "12a" = None
  /\ GoStrings.Atoi "9223372036854775808" = None.
Proof. repeat split; reflexivity. Qed.

Example EncodeToString_ex :
  GoStrings.EncodeToString "Man" = "TWFu" /\ GoStrings.EncodeToString "Ma" = "TWE="
  /\ GoStrings.EncodeToString "M" = "TQ==".
Proof. repeat split; reflexivity. Qed.

(** ** The OCR / chat gateway *)

Module services_facts.
Import GoStrings services fixtures.

Lemma ocrLoop_texts svc w images : forall acc tr,
  fst (ocrLoop svc w images acc tr) = acc ++ omap (imageText svc w) images.
Proof.
  induction images as [|p rest IH]; intros acc tr; simpl.
  - by rewrite app_nil_r.
  - unfold imageText. destruct (imageToBase64 w p) as [b|e]; simpl.
    + destruct (performOCRRequest svc w b) as [t|e]; simpl.
      * destruct (String.eqb (TrimSpace t) ""); simpl.
        -- apply IH.
        -- rewrite IH. by rewrite <- app_assoc.
      * apply IH.
    + apply IH.
Qed.

Lemma omap_nil_Forall {A B} (f : A -> option B) (l : list A) :
  omap f l = [] <-> Forall (fun x => f x = None) l.
Proof.
  induction l as [|x l IH]; simpl.
  - split; [constructor | done].
  - destruct (f x) eqn:E; simpl.
    + split; [done | intros H; inversion H; congruence].
    + rewrite IH. split; [by constructor | by inversion 1].
Qed.

Lemma eqb_empty_false s : s <> "" -> String.eqb s "" = false.
Proof. intros H. by apply String.eqb_neq. Qed.

Lemma responseList_cases tone :
  responseList tone = responseList "friendly" \/ responseList tone = responseList "formal"
  \/ responseList tone = responseList "short".
Proof.
  unfold responseList at 1, responses.
  destruct (decide (tone = "friendly")) as [->|H1]; [by left|].
  destruct (decide (tone = "formal")) as [->|H2]; [by right; left|].
  destruct (decide (tone = "short")) as [->|H3]; [by right; right|].
  rewrite !lookup_insert_ne by done. rewrite lookup_singleton_ne by done. by left.
Qed.

Lemma responseList_length tone : List.length (responseList tone) = 2%nat.
Proof. destruct (responseList_cases tone) as [-> | [-> | ->]]; reflexivity. Qed.

End services_facts.

(** ** What was checked of the gateway *)

Module ai_claims.
Import GoStrings services fixtures services_facts.

(** C3, as amended.  When an API credential is configured and the list
    of image paths is not empty, [ExtractTextFromImages] skips every
    image that cannot be read, whose request fails or whose trimmed
    answer is empty, and returns the trimmed texts of the remaining
    images, in input order, joined by the separator
    "\n\n---NEXT IMAGE---\n\n"; it returns the error
    "could not extract text from any of the N images" if and only if
    no image yields text. *)
Theorem ExtractTextFromImages_configured svc w images
    (Hkey : APIKey svc <> "") :
  extract_as_stated svc w images
  /\ (images <> [] ->
      (is_err (fst (ExtractTextFromImages svc w images)) = true
       <-> Forall (fun p => imageText svc w p = None) images)).
Proof.
  assert (Hres : images <> [] ->
    fst (ExtractTextFromImages svc w images) =
    match omap (imageText svc w) images with
    | [] => Err (NoTextExtracted (Z.of_nat (List.length images)))
    | texts => Ok (Join texts separator)
    end).
  { intros Himages. unfold ExtractTextFromImages.
    destruct images as [|p rest]; [done|].
    replace (Z.of_nat (List.length (p :: rest)) =? 0) with false
      by (symmetry; apply Z.eqb_neq; simpl; lia).
    rewrite (eqb_empty_false _ Hkey).
    pose proof (ocrLoop_texts svc w (p :: rest) [] []) as Hl.
    set (ts := omap (imageText svc w) (p :: rest)) in *.
    destruct (ocrLoop svc w (p :: rest) [] []) as [texts tr]. simpl in Hl. subst texts.
    destruct ts as [|t ts]; reflexivity. }
  split.
  - unfold extract_as_stated. intros Himages. specialize (Hres Himages).
    destruct (omap (imageText svc w) images); exact Hres.
  - intros Himages. rewrite (Hres Himages), <- omap_nil_Forall.
    destruct (omap (imageText svc w) images); simpl; split; done.
Qed.

(** Two readable images, both answered. *)
Lemma ExtractTextFromImages_configured_witness :
  APIKey svc_key <> ""
  /\ fst (ExtractTextFromImages svc_key w_ok ["a.png"; "b.png"]) =
       Ok ("Table 40 x 30" +:+ separator +:+ "Table 40 x 30").
Proof.
  split; [discriminate|].
  destruct (ExtractTextFromImages_configured svc_key w_ok ["a.png"; "b.png"]) as [H _];
    [discriminate|].
  exact (H ltac:(discriminate)).
Defined.

(** C3 as stated fails without a credential, which is the configuration
    [InitAIService] builds: an image that would yield text is not
    processed and the call fails; and when no image can be read the
    error is the missing credential, not the no-text error. *)
Lemma ExtractTextFromImages_counterexample :
  ~ extract_as_stated InitAIService w_ok ["a.png"]
  /\ ~ extract_as_stated InitAIService w_unreadable ["a.png"].
Proof.
  split; intros H; specialize (H ltac:(discriminate)); vm_compute in H; discriminate H.
Qed.

(** C10.  Without an API credential [ExtractTextFromImages] returns an
    error for every list of image paths and reads no file and sends no
    request; for the empty list it returns an error whatever the
    configuration; [GenerateAIResponse], in the same configuration,
    never fails. *)
Theorem ExtractTextFromImages_requires_credential svc w images (Hkey : APIKey svc = "") :
  is_err (fst (ExtractTextFromImages svc w images)) = true
  /\ snd (ExtractTextFromImages svc w images) = []
  /\ (forall svc' w', ExtractTextFromImages svc' w' [] = (Err NoImagesProvided, []))
  /\ (forall message tone, is_err (GenerateAIResponse svc w message tone) = false).
Proof.
  unfold ExtractTextFromImages, GenerateAIResponse. rewrite Hkey. simpl.
  repeat split.
  - destruct (Z.of_nat (List.length images) =? 0); reflexivity.
  - destruct (Z.of_nat (List.length images) =? 0); reflexivity.
Qed.

(** The configuration [InitAIService] builds has no credential. *)
Lemma ExtractTextFromImages_requires_credential_witness :
  APIKey InitAIService = ""
  /\ ExtractTextFromImages InitAIService w_ok ["a.png"] = (Err APIKeyNotConfigured, []).
Proof.
  split; [reflexivity|].
  pose proof (ExtractTextFromImages_requires_credential InitAIService w_ok ["a.png"] eq_refl)
    as (_ & _ & _ & _).
  reflexivity.
Defined.

(** C7.  Without an API credential [GenerateAIResponse] returns the
    canned reply of the tone's table at index [len(message)] modulo the
    size of the table; the index is within the table, the outside
    world plays no part, and messages of equal length get equal
    replies. *)
Theorem GenerateAIResponse_fallback svc w message tone (Hkey : APIKey svc = "") :
  GenerateAIResponse svc w message tone
    = Ok (nth (Z.to_nat (len message mod Z.of_nat (List.length (responseList tone))))
            (responseList tone) "")
  /\ (0 <= len message mod Z.of_nat (List.length (responseList tone))
        < Z.of_nat (List.length (responseList tone)))
  /\ (forall w' message',
        len message' = len message ->
        GenerateAIResponse svc w' message' tone = GenerateAIResponse svc w message tone).
Proof.
  unfold GenerateAIResponse. rewrite Hkey. simpl.
  split; [reflexivity|]. split.
  - rewrite responseList_length. apply Z.mod_pos_bound. lia.
  - intros w' message' Hlen. unfold generateFallbackResponse. by rewrite Hlen.
Qed.

(** Two five-byte messages in the short tone. *)
Lemma GenerateAIResponse_fallback_witness :
  APIKey InitAIService = ""
  /\ GenerateAIResponse InitAIService w_ok "hello" "short" = Ok "Hi! What size table cover do you need?"
  /\ GenerateAIResponse InitAIService w_ok "howdy" "short" = Ok "Hi! What size table cover do you need?".
Proof.
  split; [reflexivity|].
  destruct (GenerateAIResponse_fallback InitAIService w_ok "hello" "short" eq_refl)
    as (H1 & _ & H3).
  split; [rewrite H1; reflexivity|].
  rewrite (H3 w_ok "howdy" eq_refl), H1. reflexivity.
Defined.


(** C4, as amended.  [SetAIParameters] stores the temperature when it
    lies in [0,2] and otherwise keeps the stored one, stores the token
    limit when it lies in (0,4000] and otherwise keeps the stored one,
    and changes no other field; stored values that were in range stay
    in range. *)
Theorem SetAIParameters_in_range_or_kept svc temperature maxTokens :
  let svc' := SetAIParameters svc temperature maxTokens in
  Temperature svc' = (if temperature_ok temperature then temperature else Temperature svc)
  /\ MaxTokens svc' = (if maxTokens_ok maxTokens then maxTokens else MaxTokens svc)
  /\ APIKey svc' = APIKey svc /\ Model svc' = Model svc /\ BaseURL svc' = BaseURL svc
  /\ (temperature_ok (Temperature svc) = true -> temperature_ok (Temperature svc') = true)
  /\ (maxTokens_ok (MaxTokens svc) = true -> maxTokens_ok (MaxTokens svc') = true).
Proof.
  unfold SetAIParameters, temperature_ok, maxTokens_ok.
  destruct (SFleb f64_0 temperature && SFleb temperature f64_2) eqn:Ht;
    destruct ((0 <? maxTokens) && (maxTokens <=? 4000)) eqn:Hm; simpl; repeat split; auto.
Qed.

(** In-range values are stored, out-of-range values are dropped. *)
Lemma SetAIParameters_in_range_or_kept_witness :
  Temperature (SetAIParameters InitAIService f64_2 4000) = f64_2
  /\ MaxTokens (SetAIParameters InitAIService f64_2 4000) = 4000
  /\ Temperature (SetAIParameters InitAIService f64_3 0) = f64_0_7
  /\ MaxTokens (SetAIParameters InitAIService f64_3 0) = 1000.
Proof.
  destruct (SetAIParameters_in_range_or_kept InitAIService f64_2 4000) as (Ht & Hm & _).
  destruct (SetAIParameters_in_range_or_kept InitAIService f64_3 0) as (Ht' & Hm' & _).
  rewrite Ht, Hm, Ht', Hm'. repeat split.
Defined.

(** C4 as stated fails: temperature 3 and 5000 tokens are not clamped
    to 2 and 4000, the defaults 0.7 and 1000 stay. *)
Lemma SetAIParameters_counterexample :
  Temperature (SetAIParameters InitAIService f64_3 5000) <> clampTemperature f64_3
  /\ MaxTokens (SetAIParameters InitAIService f64_3 5000) <> clampMaxTokens 5000.
Proof. split; vm_compute; discriminate. Qed.

End ai_claims.

(** ** The database and the order handlers *)

Module config_facts.
Import GoStrings models config.

Lemma next_fault_inv c f c' :
  next_fault c = (f, c') ->
  f = hd None (faults c) /\ faults c' = tl (faults c) /\ db c' = db c /\ tx c' = tx c
  /\ log c' = log c /\ orders_id_seq c' = orders_id_seq c
  /\ order_images_id_seq c' = order_images_id_seq c.
Proof.
  unfold next_fault. intros [= <- <-]. simpl. auto 10.
Qed.

(** What a statement on the transaction handle can do. *)
Lemma exec_tx_inv s f c e c' :
  exec OnTx s f c = (e, c') ->
  db c' = db c /\ log c' = log c ++ [s] /\ faults c' = tl (faults c)
  /\ orders_id_seq c' = orders_id_seq c /\ order_images_id_seq c' = order_images_id_seq c
  /\ match e with
     | Some _ => tx c' = tx c
     | None => hd None (faults c) = None
               /\ exists t t', tx c = TxOpen t /\ f t = Ok t' /\ tx c' = TxOpen t'
     end.
Proof.
  unfold exec. destruct (next_fault (logged s c)) as [fl c1] eqn:Hn.
  apply next_fault_inv in Hn. simpl in Hn.
  destruct Hn as (-> & Hf & Hdb & Htx & Hlog & Hs1 & Hs2).
  destruct (hd None (faults c)) as [msg|] eqn:Hhd.
  - intros [= <- <-]. auto 10.
  - rewrite Htx. destruct (tx c) as [|t|e0] eqn:Etx.
    + intros [= <- <-]. auto 10.
    + destruct (f t) as [t'|e0] eqn:Ef; intros [= <- <-]; simpl; [|auto 10].
      repeat split; auto. by exists t, t'.
    + intros [= <- <-]. auto 10.
Qed.

Lemma exec_db_inv s f c e c' :
  exec OnDB s f c = (e, c') ->
  tx c' = tx c /\ log c' = log c ++ [s] /\ faults c' = tl (faults c)
  /\ match e with
     | Some _ => db c' = db c
     | None => hd None (faults c) = None /\ f (db c) = Ok (db c')
     end.
Proof.
  unfold exec. destruct (next_fault (logged s c)) as [fl c1] eqn:Hn.
  apply next_fault_inv in Hn. simpl in Hn.
  destruct Hn as (-> & Hf & Hdb & Htx & Hlog & Hs1 & Hs2).
  destruct (hd None (faults c)) as [msg|] eqn:Hhd.
  - intros [= <- <-]. auto 10.
  - rewrite Hdb. destruct (f (db c)) as [t'|e0] eqn:Ef; intros [= <- <-]; simpl; auto 10.
Qed.

(** With nothing scripted to fail, a statement succeeds exactly when
    the tables accept it. *)
Lemma exec_tx_run s f c t :
  hd None (faults c) = None -> tx c = TxOpen t ->
  exec OnTx s f c =
    match f t with
    | Ok t' => (None, with_tx (TxOpen t') (step s c))
    | Err e => (Some e, step s c)
    end.
Proof.
  intros Hf Ht. unfold exec, next_fault. simpl. rewrite Hf, Ht.
  destruct (f t); reflexivity.
Qed.

Lemma exec_db_run s f c :
  hd None (faults c) = None ->
  exec OnDB s f c =
    match f (db c) with
    | Ok t' => (None, with_db t' (step s c))
    | Err e => (Some e, step s c)
    end.
Proof.
  intros Hf. unfold exec, next_fault. simpl. rewrite Hf.
  destruct (f (db c)); reflexivity.
Qed.

Lemma query_inv {A} (f : Tables -> A) c r c' :
  query f c = (r, c') ->
  db c' = db c /\ tx c' = tx c /\ log c' = log c ++ [SQuery] /\ faults c' = tl (faults c)
  /\ orders_id_seq c' = orders_id_seq c /\ order_images_id_seq c' = order_images_id_seq c
  /\ match r with
     | Ok a => hd None (faults c) = None /\ a = f (db c)
     | Err e => hd None (faults c) = Some e
     end.
Proof.
  unfold query. destruct (next_fault (logged SQuery c)) as [fl c1] eqn:Hn.
  apply next_fault_inv in Hn. simpl in Hn.
  destruct Hn as (-> & Hf & Hdb & Htx & Hlog & Hs1 & Hs2).
  destruct (hd None (faults c)) as [msg|] eqn:Hhd; intros [= <- <-]; rewrite ?Hdb; auto 10.
Qed.

Lemma query_run {A} (f : Tables -> A) c :
  hd None (faults c) = None -> query f c = (Ok (f (db c)), step SQuery c).
Proof. intros Hf. unfold query, next_fault. simpl. by rewrite Hf. Qed.

Lemma Begin_inv c e c' :
  Begin c = (e, c') ->
  db c' = db c /\ log c' = log c ++ [SBegin] /\ faults c' = tl (faults c)
  /\ orders_id_seq c' = orders_id_seq c /\ order_images_id_seq c' = order_images_id_seq c
  /\ match e with
     | None => hd None (faults c) = None /\ tx c' = TxOpen (db c)
     | Some m => hd None (faults c) = Some m /\ tx c' = TxBroken m
     end.
Proof.
  unfold Begin, next_fault. simpl.
  destruct (hd None (faults c)) as [m|]; intros [= <- <-]; simpl; auto 10.
Qed.

Lemma Begin_run c :
  hd None (faults c) = None -> Begin c = (None, with_tx (TxOpen (db c)) (step SBegin c)).
Proof. intros Hf. unfold Begin, next_fault. simpl. by rewrite Hf. Qed.

Lemma Commit_inv c e c' :
  Commit c = (e, c') ->
  log c' = log c ++ [SCommit] /\ faults c' = tl (faults c)
  /\ match e with
     | None => hd None (faults c) = None /\ tx c = TxOpen (db c') /\ tx c' = NoTx
     | Some _ => db c' = db c
     end.
Proof.
  unfold Commit, next_fault. simpl.
  destruct (tx c) as [|t|m]; [| destruct (hd None (faults c)) as [m|] |];
    intros [= <- <-]; simpl; auto 10.
Qed.

Lemma Commit_run c t :
  hd None (faults c) = None -> tx c = TxOpen t ->
  Commit c = (None, with_tx NoTx (with_db t (step SCommit c))).
Proof. intros Hf Ht. unfold Commit, next_fault. simpl. by rewrite Ht, Hf. Qed.

Lemma Rollback_inv c u c' :
  Rollback c = (u, c') ->
  db c' = db c /\ log c' = log c ++ [SRollback] /\ faults c' = faults c /\ tx c' = NoTx.
Proof. unfold Rollback. intros [= <- <-]. simpl. auto. Qed.

(** [First]. *)
Lemma first_order_fold (p : Order -> bool) (l : list Order) : forall best : option Order,
  match fold_left
    (fun best o =>
       if p o then
         match best with
         | Some b => if ID o <? ID b then Some o else best
         | None => Some o
         end
       else best) l best with
  | Some o => best = Some o \/ (In o l /\ p o = true)
  | None => best = None /\ Forall (fun o => p o = false) l
  end.
Proof.
  induction l as [|x l IH]; intros best; simpl.
  - destruct best; auto.
  - match goal with |- context [fold_left ?f l ?b] => specialize (IH b); destruct (fold_left f l b) as [o|] end.
    + destruct IH as [IH|[Hin Hpo]]; [|by auto].
      destruct (p x) eqn:Hp; [|by auto].
      destruct best as [b|]; [destruct (ID x <? ID b)|]; try (by auto);
        injection IH as <-; auto.
    + destruct IH as [IH HF].
      destruct (p x) eqn:Hp; [|by auto].
      destruct best as [b|]; [destruct (ID x <? ID b)|]; discriminate IH.
Qed.

Lemma first_order_Some p t o :
  first_order p t = Some o -> In o (orders t) /\ p o = true.
Proof.
  unfold first_order. intros H.
  pose proof (first_order_fold p (orders t) None) as Hf.
  rewrite H in Hf. destruct Hf as [Hf|Hf]; [discriminate Hf | exact Hf].
Qed.

Lemma first_order_None p t :
  first_order p t = None <-> Forall (fun o => p o = false) (orders t).
Proof.
  unfold first_order. split.
  - intros H.
    pose proof (first_order_fold p (orders t) None) as Hf.
    rewrite H in Hf. apply Hf.
  - intros HF.
    pose proof (first_order_fold p (orders t) None) as Hf.
    destruct (fold_left _ (orders t) None) as [o|]; [|done].
    destruct Hf as [Hf|[Hin Hp]]; [discriminate Hf|].
    rewrite Forall_forall in HF. apply list_elem_of_In in Hin. specialize (HF o Hin). congruence.
Qed.


Lemma insert_order_Ok o t t' :
  insert_order o t = Ok t' ->
  t' = {| orders := orders t ++ [o]; order_images := order_images t |}
  /\ order_row_check o = None
  /\ Forall (fun o' => OrderID o' <> OrderID o) (orders t).
Proof.
  unfold insert_order. destruct (order_row_check o); [discriminate|].
  destruct (existsb _ (orders t)) eqn:Hex; [discriminate|].
  intros [= <-]. repeat split.
  rewrite Forall_forall. intros o' Hin%list_elem_of_In Heq.
  assert (existsb (fun o'0 => String.eqb (OrderID o'0) (OrderID o)) (orders t) = true) as Habs.
  { apply existsb_exists. exists o'. split; [done|]. by apply String.eqb_eq. }
  congruence.
Qed.

Lemma CreateOrderRow_tx_inv now o c r c' :
  CreateOrderRow OnTx now o c = (r, c') ->
  db c' = db c /\ log c' = log c ++ [SCreateOrder OnTx (OrderID o)]
  /\ faults c' = tl (faults c)
  /\ match r with
     | Err _ => tx c' = tx c
     | Ok o' =>
         o' = set_created (orders_id_seq c + 1) now o
         /\ exists t, tx c = TxOpen t
              /\ tx c' = TxOpen {| orders := orders t ++ [o']; order_images := order_images t |}
              /\ Forall (fun x => OrderID x <> OrderID o) (orders t)
     end.
Proof.
  unfold CreateOrderRow.
  destruct (exec OnTx _ _ c) as [e c1] eqn:He. apply exec_tx_inv in He.
  destruct He as (Hdb & Hlog & Hf & _ & _ & He).
  destruct e as [m|]; intros [= <- <-]; simpl; [auto|].
  destruct He as (_ & t & t' & Ht & Hins & Ht').
  apply insert_order_Ok in Hins. destruct Hins as (-> & _ & Hfresh).
  repeat split; auto. exists t. auto.
Qed.

Lemma CreateImageRow_tx_inv now i c e c' :
  CreateImageRow OnTx now i c = (e, c') ->
  db c' = db c /\ log c' = log c ++ [SCreateImage OnTx (img_OrderID i) (Filename i)]
  /\ faults c' = tl (faults c)
  /\ match e with
     | Some _ => tx c' = tx c
     | None =>
         hd None (faults c) = None
         /\ exists t, tx c = TxOpen t
              /\ image_row_check t (set_image_created (order_images_id_seq c + 1) now i) = None
              /\ tx c' = TxOpen {| orders := orders t;
                                   order_images := order_images t
                                     ++ [set_image_created (order_images_id_seq c + 1) now i] |}
     end.
Proof.
  unfold CreateImageRow.
  destruct (exec OnTx _ _ c) as [e0 c1] eqn:He. apply exec_tx_inv in He.
  destruct He as (Hdb & Hlog & Hf & _ & _ & He).
  destruct e0 as [m|]; intros [= <- <-]; simpl; [auto|].
  destruct He as (Hhd & t & t' & Ht & Hins & Ht').
  unfold insert_image in Hins.
  destruct (image_row_check t _) eqn:Hck; [discriminate|]. injection Hins as <-.
  repeat split; auto. exists t. auto.
Qed.

Lemma CreateImageRow_tx_run now i c t :
  hd None (faults c) = None -> tx c = TxOpen t ->
  image_row_check t (set_image_created (order_images_id_seq c + 1) now i) = None ->
  exists c',
    CreateImageRow OnTx now i c = (None, c')
    /\ faults c' = tl (faults c)
    /\ tx c' = TxOpen {| orders := orders t;
                         order_images := order_images t
                           ++ [set_image_created (order_images_id_seq c + 1) now i] |}.
Proof.
  intros Hf Ht Hck. unfold CreateImageRow.
  rewrite (exec_tx_run _ _ _ _ Hf Ht). unfold insert_image. rewrite Hck.
  eexists. split; [reflexivity|]. simpl. auto.
Qed.

Lemma bytes_app a b : bytes (a +:+ b) = bytes a ++ bytes b.
Proof.
  unfold bytes. induction a as [|x a IH]; simpl; [done|]. by rewrite IH.
Qed.

Lemma runeCount_app a b : runeCount (a +:+ b) = runeCount a + runeCount b.
Proof.
  unfold runeCount. rewrite bytes_app, List.filter_app, List.length_app. lia.
Qed.
End config_facts.

Module controllers_facts.
Import GoStrings models config controllers fixtures config_facts.

Lemma create_images_inv env owner files : forall c u c' t,
  tx c = TxOpen t ->
  create_images env owner files c = (u, c') ->
  db c' = db c
  /\ log c' = log c ++ map (SCreateImage OnTx owner) files
  /\ (faults c = [] -> faults c' = [])
  /\ exists imgs,
       tx c' = TxOpen {| orders := orders t; order_images := order_images t ++ imgs |}
       /\ Forall (fun i => img_OrderID i = owner) imgs
       /\ sublist (map Filename imgs) files.
Proof.
  induction files as [|f rest IH]; intros c u c' t Ht; simpl.
  - intros [= <- <-]. rewrite app_nil_r. split; [reflexivity|]. split; [reflexivity|].
    split; [done|].
    exists []. rewrite app_nil_r. destruct t; simpl in *.
    split; [exact Ht|]. split; constructor.
  - unfold bind.
    destruct (CreateImageRow OnTx (now env) (new_image env owner f) c) as [e c1] eqn:Hc.
    apply CreateImageRow_tx_inv in Hc. simpl in Hc.
    destruct Hc as (Hdb & Hlog & Hfl & He). intros Hrest.
    assert (Hquiet : faults c = [] -> faults c1 = []) by (intros Hz; by rewrite Hfl, Hz).
    destruct e as [m|].
    + rewrite Ht in He. apply (IH _ _ _ _ He) in Hrest.
      destruct Hrest as (Hdb' & Hlog' & Hfl' & imgs & Htx & Hown & Hsub).
      split; [congruence|]. split; [rewrite Hlog', Hlog, <- app_assoc; reflexivity|].
      split; [auto|].
      exists imgs. repeat split; auto. by apply sublist_cons.
    + destruct He as (_ & t0 & Ht0 & _ & Htx1). rewrite Ht in Ht0. injection Ht0 as <-.
      apply (IH _ _ _ _ Htx1) in Hrest. simpl in Hrest.
      destruct Hrest as (Hdb' & Hlog' & Hfl' & imgs & Htx & Hown & Hsub).
      split; [congruence|]. split; [rewrite Hlog', Hlog, <- app_assoc; reflexivity|].
      split; [auto|].
      eexists (_ :: imgs). rewrite <- app_assoc in Htx. simpl in Htx.
      split; [exact Htx|]. split; [constructor; auto|]. simpl. by apply sublist_skip.
Qed.

Lemma getMimeType_cases ext :
  In (getMimeType ext)
    ["image/jpeg"; "image/png"; "image/gif"; "image/webp"; "image/bmp"; "image/svg+xml";
     "application/octet-stream"].
Proof.
  unfold getMimeType. destruct (mimeTypes !! ToLower ext) as [m|] eqn:E; [|simpl; tauto].
  unfold mimeTypes in E.
  repeat (apply lookup_insert_Some in E; destruct E as [[_ <-]|[_ E]]; [simpl; tauto|]).
  apply lookup_singleton_Some in E. destruct E as [_ <-]. simpl. tauto.
Qed.

Lemma new_image_accepted env owner f id t :
  runeCount f <= 255 ->
  existsb (fun o => ID o =? owner) (orders t) = true ->
  image_row_check t (set_image_created id (now env) (new_image env owner f)) = None.
Proof.
  intros Hlen Hown. unfold image_row_check. simpl.
  rewrite runeCount_app. change (runeCount "/uploads/") with 9.
  assert (Hm : runeCount (getMimeType (Ext f)) <= 100).
  { pose proof (getMimeType_cases (Ext f)) as Hc. simpl in Hc.
    repeat (destruct Hc as [<-|Hc]; [vm_compute; discriminate|]). destruct Hc. }
  replace (runeCount f <=? 255) with true by (symmetry; apply Z.leb_le; lia).
  replace (9 + runeCount f <=? 500) with true by (symmetry; apply Z.leb_le; lia).
  replace (runeCount (getMimeType (Ext f)) <=? 100) with true by (symmetry; apply Z.leb_le; lia).
  simpl. by rewrite Hown.
Qed.

Lemma create_images_complete env owner files : forall c t,
  faults c = [] -> tx c = TxOpen t ->
  existsb (fun o => ID o =? owner) (orders t) = true ->
  Forall (fun f => runeCount f <= 255) files ->
  exists c' imgs,
    create_images env owner files c = (tt, c')
    /\ faults c' = []
    /\ tx c' = TxOpen {| orders := orders t; order_images := order_images t ++ imgs |}
    /\ map Filename imgs = files.
Proof.
  induction files as [|f rest IH]; intros c t Hf Ht Hown Hlen; simpl.
  - exists c, []. rewrite app_nil_r. destruct t. auto.
  - inversion Hlen as [|? ? Hlf Hlrest]; subst.
    destruct (CreateImageRow_tx_run (now env) (new_image env owner f) c t) as (c1 & Hrun & Hf1 & Ht1).
    { by rewrite Hf. } { exact Ht. } { by apply new_image_accepted. }
    rewrite Hf in Hf1. simpl in Hf1.
    destruct (IH c1 _ Hf1 Ht1 Hown Hlrest) as (c2 & imgs & Hrest & Hf2 & Ht2 & Hnames).
    simpl in Ht2. rewrite <- app_assoc in Ht2.
    eexists c2, (_ :: imgs). unfold bind. rewrite Hrun, Hrest.
    split; [reflexivity|]. split; [exact Hf2|]. split; [exact Ht2|].
    simpl. by rewrite Hnames.
Qed.

Lemma replace_images_create env owner files c :
  replace_images env owner files c = create_images env owner (validImageFiles env files) c.
Proof.
  revert c. induction files as [|f rest IH]; intros c; simpl; [done|].
  destruct (stat env f); simpl; [|apply IH].
  unfold bind. destruct (CreateImageRow _ _ _ c). apply IH.
Qed.

Lemma load_images_inv o c o' c' :
  load_images o c = (o', c') ->
  db c' = db c /\ log c' = log c ++ [SQuery]
  /\ ID o' = ID o /\ OrderID o' = OrderID o /\ Status o' = Status o.
Proof.
  unfold load_images, bind. destruct (query _ c) as [r c1] eqn:Hq.
  apply query_inv in Hq. destruct Hq as (Hdb & _ & Hlog & _).
  destruct r; intros [= <- <-]; simpl; auto.
Qed.

(** How [CreateOrder] can end. *)
Lemma CreateOrder_cases env b c resp c' :
  CreateOrder env b c = (resp, c') ->
  (rejected resp /\ db c' = db c)
  \/ (exists req o imgs order,
        ShouldBindJSON b = Ok req
        /\ resp = {| code := 201; body := JCreated order "Order created successfully" |}
        /\ db c' = {| orders := orders (db c) ++ [o];
                      order_images := order_images (db c) ++ imgs |}
        /\ o = set_created (orders_id_seq c + 1) (now env) (new_order (normalize req))
        /\ Forall (fun x => OrderID x <> OrderID o) (orders (db c))
        /\ Forall (fun i => img_OrderID i = ID o) imgs
        /\ sublist (map Filename imgs) (validImageFiles env (r_ImageFiles req))
        /\ (faults c = [] -> Forall (fun f => runeCount f <= 255) (r_ImageFiles req) ->
            map Filename imgs = validImageFiles env (r_ImageFiles req))
        /\ ID order = ID o /\ OrderID order = OrderID o /\ Status order = Status o
        /\ log c' = log c ++ [SQuery; SBegin; SCreateOrder OnTx (OrderID o)]
                      ++ map (SCreateImage OnTx (ID o)) (validImageFiles env (r_ImageFiles req))
                      ++ [SCommit; SQuery; SQuery]).
Proof.
  unfold CreateOrder, rejected.
  destruct (ShouldBindJSON b) as [req|e] eqn:Hbind;
    [|intros [= <- <-]; left; simpl; auto].
  destruct (negb (contains _ (r_Source (normalize req))));
    [intros [= <- <-]; left; simpl; auto|].
  destruct (negb (contains _ (r_Thickness (normalize req))));
    [intros [= <- <-]; left; simpl; auto|].
  destruct (negb (contains _ (r_CornerStyle (normalize req))));
    [intros [= <- <-]; left; simpl; auto|].
  destruct (String.eqb (r_OrderID (normalize req)) "");
    [intros [= <- <-]; left; simpl; auto|].
  unfold bind.
  destruct (query _ c) as [found c1] eqn:Hq. apply query_inv in Hq.
  destruct Hq as (Hdb1 & _ & Hlog1 & Hf1 & Hseq1 & _ & Hfound).
  destruct found as [[existing|]|e]; try (intros [= <- <-]; left; simpl; by auto).
  destruct Hfound as [_ Hnone]. symmetry in Hnone. apply first_order_None in Hnone.
  destruct (Begin c1) as [e c2] eqn:Hb. apply Begin_inv in Hb.
  destruct Hb as (Hdb2 & Hlog2 & Hf2 & Hseq2 & _ & Hb).
  destruct e as [m|]; [intros [= <- <-]; left; simpl; split; [auto|congruence]|].
  destruct Hb as [_ Htx2].
  destruct (CreateOrderRow OnTx (now env) (new_order (normalize req)) c2) as [created c3] eqn:Hc.
  apply CreateOrderRow_tx_inv in Hc. destruct Hc as (Hdb3 & Hlog3 & Hf3 & Hc).
  destruct created as [o|err].
  2:{ destruct (Rollback c3) as [u c4] eqn:Hr. apply Rollback_inv in Hr.
      destruct Hr as (Hdb4 & _).
      destruct (Contains (ToLower err) "duplicate" || Contains (ToLower err) "unique");
        intros [= <- <-]; left; simpl; split; auto; congruence. }
  destruct Hc as (Ho & t & Ht & Htx3 & _). rewrite Htx2 in Ht. injection Ht as <-.
  destruct (create_images env (ID o) _ c3) as [u c4] eqn:Hi.
  cbn [r_ImageFiles normalize] in Hi.
  assert (Hcomplete : faults c = [] ->
            Forall (fun f => runeCount f <= 255) (r_ImageFiles req) ->
            exists imgs',
              tx c4 = TxOpen {| orders := orders (db c1) ++ [o];
                                order_images := order_images (db c1) ++ imgs' |}
              /\ map Filename imgs' = validImageFiles env (r_ImageFiles req)).
  { intros Hfz Hshort.
    edestruct (create_images_complete env (ID o) (validImageFiles env (r_ImageFiles req))
                 c3) as (c4' & imgs' & Hrun & _ & Htx' & Hnames); [| exact Htx3 | | |].
    - rewrite Hf3, Hf2, Hf1, Hfz. reflexivity.
    - simpl. rewrite existsb_app. simpl. rewrite Z.eqb_refl. by rewrite orb_true_r.
    - unfold validImageFiles. rewrite Forall_forall in Hshort. rewrite Forall_forall.
      intros f Hin%list_elem_of_In%filter_In. apply Hshort, list_elem_of_In, Hin.
    - rewrite Hrun in Hi. injection Hi as _ <-. exists imgs'. auto. }
  apply (create_images_inv _ _ _ _ _ _ _ Htx3) in Hi. simpl in Hi.
  destruct Hi as (Hdb4 & Hlog4 & _ & imgs & Htx4 & Hown & Hsub).
  destruct (Commit c4) as [e c5] eqn:Hcm. apply Commit_inv in Hcm.
  destruct Hcm as (Hlog5 & _ & Hcm).
  destruct e as [m|]; [intros [= <- <-]; left; simpl; split; [auto|congruence]|].
  destruct Hcm as (_ & Htx5 & _). rewrite Htx4 in Htx5. injection Htx5 as Hdb5.
  destruct (query _ c5) as [r c6] eqn:Hq6. apply query_inv in Hq6.
  destruct Hq6 as (Hdb6 & _ & Hlog6 & _ & _ & _ & Hr).
  match goal with |- context [load_images ?x c6] => set (reloaded := x) end.
  destruct (load_images reloaded c6) as [order c7] eqn:Hl. apply load_images_inv in Hl.
  destruct Hl as (Hdb7 & Hlog7 & Hid & Hoid & Hst).
  intros [= <- <-]. right.
  assert (Hre : ID reloaded = ID o /\ OrderID reloaded = OrderID o /\ Status reloaded = Status o).
  { subst reloaded. destruct r as [[o'|]|e]; auto.
    destruct Hr as [_ Hr]. symmetry in Hr. apply first_order_Some in Hr.
    destruct Hr as [Hin Hp]. rewrite <- Hdb5 in Hin. simpl in Hin.
    apply in_app_or in Hin. destruct Hin as [Hin|[->|[]]]; [|auto].
    apply andb_prop in Hp. destruct Hp as [Hp _]. apply String.eqb_eq in Hp.
    rewrite Forall_forall in Hnone. rewrite Hdb1 in Hin. apply list_elem_of_In in Hin.
    specialize (Hnone _ Hin). simpl in Hnone.
    rewrite Ho in Hp. simpl in Hp. rewrite Hp in Hnone. rewrite String.eqb_refl in Hnone.
    discriminate. }
  destruct Hre as (Hre1 & Hre2 & Hre3).
  exists req, o, imgs, order. repeat split; auto; try congruence.
  - rewrite Forall_forall in Hnone. rewrite Forall_forall.
    intros x Hx Heq. specialize (Hnone x Hx). simpl in Hnone.
    rewrite Ho in Heq. simpl in Heq. rewrite Heq, String.eqb_refl in Hnone. discriminate.
  - intros Hfz Hshort. destruct (Hcomplete Hfz Hshort) as (imgs' & Htx' & Hnames).
    rewrite Htx4 in Htx'. injection Htx' as Heq%app_inv_head. by rewrite Heq.
  - rewrite Hlog7, Hlog6, Hlog5, Hlog4, Hlog3, Hlog2, Hlog1.
    rewrite Ho. simpl. rewrite <- !app_assoc. simpl. reflexivity.
Qed.


Ltac quiet Hf := simpl; rewrite ?Hf; reflexivity.

Lemma filter_none {A} (p : A -> bool) (l : list A) :
  List.filter p (List.filter (fun x => negb (p x)) l) = [].
Proof.
  induction l as [|x l IH]; simpl; [done|].
  destruct (p x) eqn:Hp; simpl; [done|]. by rewrite Hp.
Qed.

Lemma filter_filter_same {A} (p : A -> bool) (l : list A) :
  List.filter p (List.filter p l) = List.filter p l.
Proof.
  induction l as [|x l IH]; simpl; [done|].
  destruct (p x) eqn:Hp; simpl; [|done]. by rewrite Hp, IH.
Qed.

(** How [DeleteOrder] can end. *)
Lemma DeleteOrder_cases id c resp c' :
  DeleteOrder id c = (resp, c') ->
  (code resp <> 200 /\ db c' = db c)
  \/ (exists orderID order,
        Atoi id = Some orderID
        /\ first_order (fun o => ID o =? orderID) (db c) = Some order
        /\ resp = {| code := 200; body := JMessage "Order deleted successfully" |}
        /\ db c' = {| orders := List.filter (fun o => negb (ID o =? orderID)) (orders (db c));
                      order_images :=
                        List.filter (fun i => negb (img_OrderID i =? orderID))
                          (order_images (db c)) |}
        /\ log c' = log c ++ [SQuery; SBegin; SDeleteImages OnTx orderID;
                               SDeleteOrder OnTx orderID; SCommit]).
Proof.
  unfold DeleteOrder.
  destruct (Atoi id) as [orderID|] eqn:Hid; [|intros [= <- <-]; left; simpl; auto].
  unfold bind.
  destruct (query _ c) as [r c1] eqn:Hq. apply query_inv in Hq.
  destruct Hq as (Hdb1 & _ & Hlog1 & _ & _ & _ & Hr).
  destruct r as [[order|]|e]; try (intros [= <- <-]; left; simpl; by auto).
  destruct Hr as [_ Hr]. symmetry in Hr.
  destruct (first_order_Some _ _ _ Hr) as [_ Hoid%Z.eqb_eq].
  destruct (Begin c1) as [e c2] eqn:Hb. apply Begin_inv in Hb.
  destruct Hb as (Hdb2 & Hlog2 & _ & _ & _ & Hb).
  unfold DeleteImagesWhere, DeleteOrderRow.
  destruct (exec OnTx _ _ c2) as [e1 c3] eqn:H1. apply exec_tx_inv in H1.
  destruct H1 as (Hdb3 & Hlog3 & _ & _ & _ & H1).
  destruct e1 as [m|].
  { destruct (Rollback c3) as [u c4] eqn:Hrb. apply Rollback_inv in Hrb.
    destruct Hrb as (Hdb4 & _). intros [= <- <-]. left. simpl. split; [done|congruence]. }
  destruct H1 as (_ & t & t1 & Ht & Hd1 & Htx3).
  destruct (exec OnTx _ _ c3) as [e2 c4] eqn:H2. apply exec_tx_inv in H2.
  destruct H2 as (Hdb4 & Hlog4 & _ & _ & _ & H2).
  destruct e2 as [m|].
  { destruct (Rollback c4) as [u c5] eqn:Hrb. apply Rollback_inv in Hrb.
    destruct Hrb as (Hdb5 & _). intros [= <- <-]. left. simpl. split; [done|congruence]. }
  destruct H2 as (_ & t1' & t2 & Ht1 & Hd2 & Htx4).
  rewrite Htx3 in Ht1. injection Ht1 as <-.
  destruct (Commit c4) as [e3 c5] eqn:Hc. apply Commit_inv in Hc.
  destruct Hc as (Hlog5 & _ & Hc).
  destruct e3 as [m|]; intros [= <- <-]; [left; simpl; split; [done|congruence]|].
  destruct Hc as (_ & Htx5 & _). rewrite Htx4 in Htx5. injection Htx5 as ->.
  destruct e as [m|]; destruct Hb as [_ Htx2]; rewrite Htx2 in Ht; [discriminate|].
  injection Ht as <-.
  unfold delete_images in Hd1. injection Hd1 as <-.
  unfold delete_order in Hd2. simpl in Hd2. injection Hd2 as <-.
  right. exists orderID, order. rewrite Hoid in *.
  repeat split; auto.
  - rewrite filter_filter_same, Hdb1. reflexivity.
  - rewrite Hlog5, Hlog4, Hlog3, Hlog2, Hlog1, <- !app_assoc. reflexivity.
Qed.

(** With nothing scripted to fail, deleting an existing order succeeds. *)
Lemma DeleteOrder_run id orderID order c resp c' :
  Atoi id = Some orderID ->
  first_order (fun o => ID o =? orderID) (db c) = Some order ->
  faults c = [] ->
  DeleteOrder id c = (resp, c') ->
  code resp = 200 /\ faults c' = [].
Proof.
  intros Hid Hfirst Hf. unfold DeleteOrder. rewrite Hid. unfold bind.
  rewrite query_run by quiet Hf. rewrite Hfirst. cbv beta iota zeta.
  rewrite Begin_run by quiet Hf. cbv beta iota zeta.
  unfold DeleteImagesWhere, DeleteOrderRow.
  erewrite exec_tx_run by (try quiet Hf; simpl; reflexivity).
  unfold delete_images at 1. cbv beta iota zeta.
  erewrite exec_tx_run by (try quiet Hf; simpl; reflexivity).
  unfold delete_order at 1. cbv beta iota zeta.
  erewrite Commit_run by (try quiet Hf; simpl; reflexivity).
  intros [= <- <-]. simpl. rewrite Hf. auto.
Qed.


Lemma GetOrder_missing id orderID c :
  Atoi id = Some orderID ->
  Forall (fun o => ID o <> orderID) (orders (db c)) ->
  hd None (faults c) = None ->
  fst (GetOrder id c) = {| code := 404; body := JError "Order not found" |}.
Proof.
  intros Hid Hall Hf. unfold GetOrder. rewrite Hid. unfold bind.
  rewrite query_run by exact Hf.
  replace (first_order _ (db c)) with (@None Order); [reflexivity|].
  symmetry. apply first_order_None. rewrite Forall_forall in Hall. rewrite Forall_forall.
  intros o Ho. apply Z.eqb_neq. by apply Hall.
Qed.

Lemma contains_validStatuses s :
  contains validStatuses s = true <-> s = "new" \/ s = "in-progress" \/ s = "done".
Proof.
  unfold contains, validStatuses. cbn [existsb].
  rewrite !orb_true_iff, !String.eqb_eq. intuition congruence.
Qed.

(** A stored row stays acceptable to the schema when only its status
    changes, to one of the three values. *)
Lemma order_row_check_status now s o :
  order_row_check o = None ->
  s = "new" \/ s = "in-progress" \/ s = "done" ->
  order_row_check (set_updated now (set_status s o)) = None.
Proof.
  intros Hck Hs.
  destruct o as [id oid name Source phone Length Width Thickness CornerStyle
                   notes special Status imgs by_ created updated].
  unfold order_row_check in *.
  cbn [set_updated set_status models.OrderID models.CustomerName models.Source
       models.PhoneNumber models.Thickness models.CornerStyle models.Status
       models.Length models.Width] in *.
  destruct (negb _) eqn:E1 in Hck; [discriminate|].
  apply negb_false_iff in E1. rewrite !andb_true_iff in E1.
  destruct E1 as ((((((H1 & H2) & H3) & H4) & H5) & H6) & H7).
  rewrite H1, H2, H3, H4, H5, H6.
  destruct (negb (contains _ Source)) eqn:E2; [discriminate|].
  destruct (negb (contains _ CornerStyle)) eqn:E3; [discriminate|].
  destruct (negb (contains _ Status)) eqn:E4; [discriminate|].
  destruct (negb (positive_f64 Length)) eqn:E5; [discriminate|].
  destruct (negb (positive_f64 Width)) eqn:E6; [discriminate|].
  destruct (negb (contains _ Thickness)) eqn:E7; [discriminate|].
  destruct Hs as [-> | [-> | ->]]; reflexivity.
Qed.

Lemma save_order_Ok o t t' :
  save_order o t = Ok t' ->
  order_images t' = order_images t
  /\ In o (orders t')
  /\ (forall x, In x (orders t') -> x = o \/ (In x (orders t) /\ ID x <> ID o)).
Proof.
  unfold save_order. destruct (order_row_check o); [discriminate|].
  destruct (existsb _ (orders t)); [discriminate|].
  destruct (existsb (fun o' => ID o' =? ID o) (orders t)) eqn:Hex; intros [= <-]; simpl.
  - split; [done|]. split.
    + apply existsb_exists in Hex. destruct Hex as (x & Hin & Hx).
      apply in_map_iff. exists x. by rewrite Hx.
    + intros x (y & <- & Hy)%in_map_iff.
      destruct (ID y =? ID o) eqn:E; [by left|]. right. split; [done|]. by apply Z.eqb_neq.
  - split; [done|]. split; [apply in_or_app; right; by left|].
    intros x [Hin|[<-|[]]]%in_app_or; [|by left].
    right. split; [done|]. intros Heq.
    assert (existsb (fun o' => ID o' =? ID o) (orders t) = true) as Habs; [|congruence].
    apply existsb_exists. exists x. split; [done|]. by apply Z.eqb_eq.
Qed.

Lemma save_order_accepts o t :
  order_row_check o = None ->
  (forall x, In x (orders t) -> OrderID x = OrderID o -> ID x = ID o) ->
  exists t', save_order o t = Ok t'.
Proof.
  intros Hck Huniq. unfold save_order. rewrite Hck.
  replace (existsb (fun o' => String.eqb (OrderID o') (OrderID o) && negb (ID o' =? ID o))
             (orders t)) with false.
  - destruct (existsb _ (orders t)); eexists; reflexivity.
  - symmetry. apply not_true_is_false. intros Hex.
    apply existsb_exists in Hex. destruct Hex as (x & Hin & Hx).
    apply andb_prop in Hx. destruct Hx as [Hoid%String.eqb_eq Hid%negb_true_iff%Z.eqb_neq].
    apply Hid. apply Huniq; assumption.
Qed.


Lemma UpdateOrderStatus_rejects env id orderID status c :
  Atoi id = Some orderID ->
  ~ (status = "new" \/ status = "in-progress" \/ status = "done") ->
  exists msg,
    UpdateOrderStatus env id (Decoded {| r_Status := status |}) c
      = ({| code := 400; body := JError msg |}, c).
Proof.
  intros Hid Hbad. unfold UpdateOrderStatus. rewrite Hid.
  unfold ShouldBindStatusJSON. cbn [r_Status].
  destruct (String.eqb status ""); [eexists; reflexivity|].
  cbn [r_Status].
  destruct (contains validStatuses status) eqn:Hc.
  - apply contains_validStatuses in Hc. contradiction.
  - eexists. reflexivity.
Qed.

Lemma UpdateOrderStatus_accepts env id orderID order status c resp c' :
  Atoi id = Some orderID ->
  first_order (fun o => ID o =? orderID) (db c) = Some order ->
  status = "new" \/ status = "in-progress" \/ status = "done" ->
  faults c = [] ->
  order_row_check order = None ->
  (forall x, In x (orders (db c)) -> OrderID x = OrderID order -> ID x = ID order) ->
  UpdateOrderStatus env id (Decoded {| r_Status := status |}) c = (resp, c') ->
  let updated := set_updated (now env) (set_status status order) in
  resp = {| code := 200; body := JOrder updated |}
  /\ In updated (orders (db c'))
  /\ (forall x, In x (orders (db c')) ->
        x = updated \/ (In x (orders (db c)) /\ ID x <> orderID))
  /\ order_images (db c') = order_images (db c)
  /\ log c' = log c ++ [SQuery; SSaveOrder OnDB orderID].
Proof.
  intros Hid Hfirst Hs Hf Hck Huniq.
  destruct (first_order_Some _ _ _ Hfirst) as [Hin Hoid%Z.eqb_eq].
  unfold UpdateOrderStatus. rewrite Hid.
  unfold ShouldBindStatusJSON. cbn [r_Status].
  replace (String.eqb status "") with false
    by (destruct Hs as [-> | [-> | ->]]; reflexivity).
  cbn [r_Status].
  replace (contains validStatuses status) with true
    by (symmetry; by apply contains_validStatuses).
  cbn [negb]. unfold bind.
  rewrite query_run by quiet Hf. rewrite Hfirst. cbv beta iota zeta.
  unfold SaveOrder. rewrite exec_db_run by quiet Hf.
  destruct (save_order_accepts (set_updated (now env) (set_status status order)) (db c))
    as [t' Hsave].
  { by apply order_row_check_status. }
  { intros x Hx Hxo. simpl in *. by apply Huniq. }
  change (db (step SQuery c)) with (db c). rewrite Hsave.
  apply save_order_Ok in Hsave. destruct Hsave as (Himgs & Hnew & Hrows).
  intros [= <- <-]. simpl. rewrite Hoid in *. repeat split; auto.
  - intros x Hx. destruct (Hrows x Hx) as [->|[Hold Hne]]; [by left|].
    right. split; [done|]. simpl in Hne. congruence.
  - by rewrite <- app_assoc.
Qed.


Lemma images_of_replaced owner old imgs :
  Forall (fun i => img_OrderID i = owner) imgs ->
  List.filter (fun i => img_OrderID i =? owner)
    (List.filter (fun i => negb (img_OrderID i =? owner)) old ++ imgs) = imgs.
Proof.
  intros Hown. rewrite List.filter_app, filter_none. simpl.
  induction Hown as [|i imgs Hi _ IH]; simpl; [done|].
  rewrite (proj2 (Z.eqb_eq _ _) Hi). by rewrite IH.
Qed.

Lemma ShouldBindJSON_Decoded req req' :
  ShouldBindJSON (Decoded req) = Ok req' -> req' = req.
Proof.
  unfold ShouldBindJSON. destruct (binding_errors req); [|discriminate]. congruence.
Qed.

(** The transaction of an update that answers 200, with nothing
    scripted to fail. *)
Lemma UpdateOrder_tx_quiet env req order c resp c' :
  faults c = [] ->
  In order (orders (db c)) ->
  UpdateOrder_tx env req order c = (resp, c') ->
  code resp = 200 ->
  let updated := set_updated (now env) (apply_update req order) in
  let files := validImageFiles env (r_ImageFiles req) in
  In updated (orders (db c'))
  /\ (forall x, In x (orders (db c')) ->
        x = updated \/ (In x (orders (db c)) /\ ID x <> ID order))
  /\ (r_ImageFiles req = [] -> order_images (db c') = order_images (db c))
  /\ (r_ImageFiles req <> [] ->
      exists imgs,
        order_images (db c') =
          List.filter (fun i => negb (img_OrderID i =? ID order)) (order_images (db c)) ++ imgs
        /\ Forall (fun i => img_OrderID i = ID order) imgs
        /\ sublist (map Filename imgs) files
        /\ (Forall (fun f => runeCount f <= 255) (r_ImageFiles req) ->
            map Filename imgs = files))
  /\ log c' = log c ++ [SBegin; SSaveOrder OnTx (ID order)]
                ++ image_stmts (ID order) (r_ImageFiles req) files ++ [SCommit; SQuery].
Proof.
  intros Hf Hin. unfold UpdateOrder_tx, bind.
  rewrite Begin_run by quiet Hf. cbv beta iota zeta.
  unfold SaveOrder. erewrite exec_tx_run by (try quiet Hf; simpl; reflexivity).
  destruct (save_order _ (db c)) as [t1|e] eqn:Hsave.
  2:{ intros [= <- <-] Hcode. discriminate Hcode. }
  apply save_order_Ok in Hsave. destruct Hsave as (Himgs & Hnew & Hrows).
  cbv beta iota zeta.
  assert (Hid : ID (set_updated (now env) (apply_update req order)) = ID order) by reflexivity.
  rewrite Hid in *.
  unfold image_stmts.
  destruct (0 <? Z.of_nat (List.length (r_ImageFiles req))) eqn:Hlen.
  - (* a list of files was supplied *)
    unfold DeleteImagesWhere.
    erewrite exec_tx_run by (try quiet Hf; simpl; reflexivity).
    unfold delete_images at 1. cbv beta iota zeta.
    rewrite replace_images_create.
    match goal with |- context [create_images env (ID order) ?fs ?c3] =>
      destruct (create_images env (ID order) fs c3) as [u c4] eqn:Hi;
      assert (Hq3 : faults c3 = []) by quiet Hf;
      assert (Htx3 : tx c3 = TxOpen {| orders := orders t1;
                 order_images := List.filter (fun i => negb (img_OrderID i =? ID order))
                                   (order_images t1) |}) by reflexivity;
      assert (Hlog3 : log c3 = log c ++ [SBegin; SSaveOrder OnTx (ID order);
                                         SDeleteImages OnTx (ID order)])
        by (simpl; rewrite <- !app_assoc; reflexivity);
      assert (Hdb3 : db c3 = db c) by reflexivity
    end.
    assert (Hown1 : existsb (fun o => ID o =? ID order) (orders t1) = true).
    { apply existsb_exists. eexists. split; [exact Hnew|]. simpl. apply Z.eqb_refl. }
    assert (Hcomplete : Forall (fun f => runeCount f <= 255) (r_ImageFiles req) ->
              exists imgs', tx c4 = TxOpen {| orders := orders t1;
                   order_images := List.filter (fun i => negb (img_OrderID i =? ID order))
                                     (order_images t1) ++ imgs' |}
                /\ map Filename imgs' = validImageFiles env (r_ImageFiles req)).
    { intros Hshort.
      edestruct (create_images_complete env (ID order)
                   (validImageFiles env (r_ImageFiles req)))
        as (c4' & imgs' & Hrun & _ & Htx' & Hnames); [exact Hq3 | exact Htx3 | exact Hown1 | |].
      - unfold validImageFiles. rewrite Forall_forall in Hshort. rewrite Forall_forall.
        intros f Hfin%list_elem_of_In%filter_In. apply Hshort, list_elem_of_In, Hfin.
      - rewrite Hrun in Hi. injection Hi as _ <-. exists imgs'. auto. }
    apply (create_images_inv _ _ _ _ _ _ _ Htx3) in Hi. simpl in Hi.
    destruct Hi as (Hdb4 & Hlog4 & _ & imgs & Htx4 & Hown & Hsub).
    destruct (Commit c4) as [e c5] eqn:Hcm. apply Commit_inv in Hcm.
    destruct Hcm as (Hlog5 & _ & Hcm).
    destruct e as [m|]; [intros [= <- <-] Hcode; discriminate Hcode|].
    destruct Hcm as (_ & Htx5 & _). rewrite Htx4 in Htx5. injection Htx5 as Hdb5.
    destruct (load_images _ c5) as [o6 c6] eqn:Hl. apply load_images_inv in Hl.
    destruct Hl as (Hdb6 & Hlog6 & _). intros [= <- <-] _.
    rewrite Hdb6, <- Hdb5. simpl.
    split; [exact Hnew|]. split; [exact Hrows|]. split.
    { intros Hnil. rewrite Hnil in Hlen. discriminate Hlen. }
    split.
    { intros _. exists imgs. rewrite Himgs. split; [reflexivity|]. split; [exact Hown|].
      split; [exact Hsub|]. intros Hshort.
      destruct (Hcomplete Hshort) as (imgs' & Htx' & Hnames).
      rewrite Htx4 in Htx'. injection Htx' as Heq%app_inv_head. by rewrite Heq. }
    rewrite Hlog6, Hlog5, Hlog4. simpl. rewrite <- !app_assoc. simpl. reflexivity.
  - (* no file was supplied *)
    unfold ret. cbv beta iota zeta.
    erewrite Commit_run by (try quiet Hf; simpl; reflexivity).
    destruct (load_images _ _) as [o6 c6] eqn:Hl. apply load_images_inv in Hl.
    destruct Hl as (Hdb6 & Hlog6 & _). intros [= <- <-] _.
    rewrite Hdb6. simpl.
    split; [exact Hnew|]. split; [exact Hrows|]. split; [intros _; exact Himgs|].
    split.
    { intros Hne. destruct (r_ImageFiles req); [contradiction|discriminate Hlen]. }
    rewrite Hlog6. simpl. rewrite <- !app_assoc. reflexivity.
Qed.


Lemma UpdateOrder_quiet env id orderID order req c resp c' :
  Atoi id = Some orderID ->
  first_order (fun o => ID o =? orderID) (db c) = Some order ->
  faults c = [] ->
  UpdateOrder env id (Decoded req) c = (resp, c') ->
  code resp = 200 ->
  exists c1 pre,
    db c1 = db c /\ faults c1 = [] /\ Forall (eq SQuery) pre /\ log c1 = log c ++ pre
    /\ UpdateOrder_tx env req order c1 = (resp, c').
Proof.
  intros Hid Hfirst Hf. unfold UpdateOrder. rewrite Hid. unfold bind.
  rewrite query_run by quiet Hf. rewrite Hfirst. cbv beta iota zeta.
  destruct (ShouldBindJSON (Decoded req)) as [req'|e] eqn:Hb.
  2:{ intros [= <- <-] Hc. discriminate Hc. }
  apply ShouldBindJSON_Decoded in Hb. subst req'.
  destruct (negb (String.eqb (r_OrderID req) (OrderID order))).
  - rewrite query_run by quiet Hf. cbv beta iota zeta. unfold ret.
    destruct (first_order _ (db (step SQuery c))) as [other|]; cbv beta iota zeta.
    + intros [= <- <-] Hc. discriminate Hc.
    + intros Htx _. eexists _, [SQuery; SQuery]. split; [|split; [|split; [|split]]];
        [| | | |exact Htx]; simpl; rewrite ?Hf; auto.
      by rewrite <- app_assoc.
  - unfold ret. intros Htx _. eexists _, [SQuery]. split; [|split; [|split; [|split]]];
      [| | | |exact Htx]; simpl; rewrite ?Hf; auto.
Qed.




End controllers_facts.

(** ** What was checked of the order handlers *)

Module order_claims.
Import GoStrings models config controllers fixtures config_facts controllers_facts.




(** C5.  Whenever [CreateOrder] answers 201, the order in the response
    has status "new" and the identifier of the request with the
    surrounding white space trimmed, and so has the stored row. *)
Theorem CreateOrder_status_new env req c
    (Hcreated : code (fst (CreateOrder env (Decoded req) c)) = 201) :
  exists order,
    body (fst (CreateOrder env (Decoded req) c)) = JCreated order "Order created successfully"
    /\ Status order = "new"
    /\ OrderID order = TrimSpace (r_OrderID req)
    /\ exists row,
         In row (orders (db (snd (CreateOrder env (Decoded req) c))))
         /\ ID row = ID order /\ OrderID row = OrderID order /\ Status row = "new".
Proof.
  destruct (CreateOrder env (Decoded req) c) as [resp c'] eqn:Hrun. simpl in *.
  destruct (CreateOrder_cases _ _ _ _ _ Hrun) as [[[Hcode _] _]|(req' & o & imgs & order & H)].
  - rewrite Hcreated in Hcode. destruct Hcode as [|[|]]; discriminate.
  - destruct H as (Hb & -> & Hdb & Ho & _ & _ & _ & _ & Hid & Hoid & Hst & _).
    apply ShouldBindJSON_Decoded in Hb. subst req'.
    exists order. simpl. rewrite Hst, Hoid, Ho. repeat split.
    exists o. rewrite Hdb, Hid, Ho. simpl. repeat split. apply in_or_app. right. by left.
Qed.

(** Creating ORD-100 in an empty database. *)
Lemma CreateOrder_status_new_witness :
  code (fst (CreateOrder env_uploads (Decoded req_ORD100) conn_empty)) = 201
  /\ exists order,
       body (fst (CreateOrder env_uploads (Decoded req_ORD100) conn_empty))
         = JCreated order "Order created successfully"
       /\ Status order = "new" /\ OrderID order = "ORD-100".
Proof.
  split; [reflexivity|].
  destruct (CreateOrder_status_new env_uploads req_ORD100 conn_empty eq_refl)
    as (order & Hbody & Hst & Hoid & _).
  exists order. auto.
Defined.


(** C6.  For an order that exists: with nothing failing [DeleteOrder]
    answers 200; whenever it answers 200 it has issued, on one
    transaction, the deletion of the image rows and then the deletion
    of the order, no image row references the order, no order row has
    its key, and a following [GetOrder] answers 404; whenever it does
    not answer 200 the tables are unchanged. *)
Theorem DeleteOrder_cascade id orderID order c
    (Hid : Atoi id = Some orderID)
    (Hfirst : first_order (fun o => ID o =? orderID) (db c) = Some order) :
  let r := DeleteOrder id c in
  (faults c = [] -> code (fst r) = 200)
  /\ (code (fst r) = 200 ->
      log (snd r) = log c ++ [SQuery; SBegin; SDeleteImages OnTx orderID;
                              SDeleteOrder OnTx orderID; SCommit]
      /\ images_of orderID (db (snd r)) = []
      /\ Forall (fun i => img_OrderID i <> orderID) (order_images (db (snd r)))
      /\ Forall (fun o => ID o <> orderID) (orders (db (snd r)))
      /\ (hd None (faults (snd r)) = None ->
          fst (GetOrder id (snd r)) = {| code := 404; body := JError "Order not found" |}))
  /\ (code (fst r) <> 200 -> db (snd r) = db c).
Proof.
  intros r. subst r. destruct (DeleteOrder id c) as [resp c'] eqn:Hrun. simpl.
  pose proof (DeleteOrder_cases _ _ _ _ Hrun) as Hcases.
  split; [|split].
  - intros Hf. by destruct (DeleteOrder_run _ _ _ _ _ _ Hid Hfirst Hf Hrun).
  - intros Hcode. destruct Hcases as [[Hne _]|(oid & o & Hid' & _ & _ & Hdb & Hlog)];
      [contradiction|].
    rewrite Hid in Hid'. injection Hid' as <-.
    assert (Hgone : Forall (fun o => ID o <> orderID) (orders (db c'))).
    { rewrite Hdb. simpl. rewrite Forall_forall.
      intros x Hx%list_elem_of_In%filter_In. destruct Hx as [_ Hx].
      by apply negb_true_iff, Z.eqb_neq in Hx. }
    split; [exact Hlog|]. split; [|split; [|split; [exact Hgone|]]].
    + rewrite Hdb. unfold images_of. simpl. apply filter_none.
    + rewrite Hdb. simpl. rewrite Forall_forall.
      intros x Hx%list_elem_of_In%filter_In. destruct Hx as [_ Hx].
      by apply negb_true_iff, Z.eqb_neq in Hx.
    + intros Hf. by apply (GetOrder_missing id orderID).
  - intros Hcode. destruct Hcases as [[_ Hdb]|(oid & o & _ & _ & -> & _)];
      [exact Hdb|]. simpl in Hcode. contradiction.
Qed.

(** Deleting ORD-100 and its two images. *)
Lemma DeleteOrder_cascade_witness :
  Atoi "1" = Some 1
  /\ code (fst (DeleteOrder "1" conn_ORD100)) = 200
  /\ images_of 1 (db conn_ORD100) <> []
  /\ images_of 1 (db (snd (DeleteOrder "1" conn_ORD100))) = []
  /\ code (fst (GetOrder "1" (snd (DeleteOrder "1" conn_ORD100)))) = 404.
Proof.
  split; [reflexivity|].
  destruct (first_order (fun o => ID o =? 1) (db conn_ORD100)) as [order|] eqn:Hfirst;
    [|vm_compute in Hfirst; discriminate Hfirst].
  destruct (DeleteOrder_cascade "1" 1 order conn_ORD100 eq_refl Hfirst) as (Hok & Hpost & _).
  specialize (Hok eq_refl). destruct (Hpost Hok) as (_ & Himgs & _ & _ & Hget).
  split; [exact Hok|]. split; [vm_compute; discriminate|]. split; [exact Himgs|].
  rewrite Hget; reflexivity.
Defined.

(** C8.  On an existing order [UpdateOrderStatus] accepts "new",
    "in-progress" and "done", whatever the current status: with
    nothing failing, on rows that satisfy the schema, it answers 200
    with the order carrying the requested status and stores it, the
    images untouched.  Every other status is answered 400 and the
    database is not touched at all. *)
Theorem UpdateOrderStatus_accepts_exactly env id orderID order status c
    (Hid : Atoi id = Some orderID)
    (Hfirst : first_order (fun o => ID o =? orderID) (db c) = Some order) :
  let r := UpdateOrderStatus env id (Decoded {| r_Status := status |}) c in
  let updated := set_updated (now env) (set_status status order) in
  (status = "new" \/ status = "in-progress" \/ status = "done" ->
   faults c = [] -> schema_ok (db c) ->
   fst r = {| code := 200; body := JOrder updated |}
   /\ Status updated = status
   /\ In updated (orders (db (snd r)))
   /\ (forall x, In x (orders (db (snd r))) -> ID x = orderID -> x = updated)
   /\ order_images (db (snd r)) = order_images (db c))
  /\ (~ (status = "new" \/ status = "in-progress" \/ status = "done") ->
      code (fst r) = 400 /\ snd r = c).
Proof.
  intros r updated. subst r updated. split.
  - intros Hs Hf [Hrows Huniq].
    destruct (first_order_Some _ _ _ Hfirst) as [Hin _].
    destruct (UpdateOrderStatus env id _ c) as [resp c'] eqn:Hrun.
    destruct (UpdateOrderStatus_accepts _ _ _ _ _ _ _ _ Hid Hfirst Hs Hf (Hrows _ Hin)
                (fun x Hx => Huniq x order Hx Hin) Hrun) as (-> & Hnew & Hothers & Himgs & _).
    simpl. repeat split; auto.
    intros x Hx Hxid. destruct (Hothers x Hx) as [->|[_ Hne]]; [reflexivity|contradiction].
  - intros Hbad. destruct (UpdateOrderStatus_rejects env id orderID status c Hid Hbad)
      as [msg ->]. auto.
Qed.

(** "done" is accepted, "shipped" is not. *)
Lemma UpdateOrderStatus_accepts_exactly_witness :
  Atoi "1" = Some 1
  /\ code (fst (UpdateOrderStatus env_uploads "1" (Decoded {| r_Status := "done" |})
                  conn_ORD100)) = 200
  /\ code (fst (UpdateOrderStatus env_uploads "1" (Decoded {| r_Status := "shipped" |})
                  conn_ORD100)) = 400.
Proof.
  split; [reflexivity|].
  destruct (first_order (fun o => ID o =? 1) (db conn_ORD100)) as [order|] eqn:Hfirst;
    [|vm_compute in Hfirst; discriminate Hfirst].
  split.
  - destruct (UpdateOrderStatus_accepts_exactly env_uploads "1" 1 order "done" conn_ORD100
                eq_refl Hfirst) as [Hok _].
    assert (Hschema : schema_ok (db conn_ORD100)).
    { split.
      - intros o Ho. vm_compute in Ho. destruct Ho as [<-|[]]. vm_compute. reflexivity.
      - intros x y Hx Hy _. vm_compute in Hx, Hy.
        destruct Hx as [<-|[]], Hy as [<-|[]]. reflexivity. }
    rewrite (proj1 (Hok (or_intror (or_intror eq_refl)) eq_refl Hschema)).
    reflexivity.
  - destruct (UpdateOrderStatus_accepts_exactly env_uploads "1" 1 order "shipped" conn_ORD100
                eq_refl Hfirst) as [_ Hbad].
    apply Hbad. intros [H|[H|H]]; discriminate H.
Defined.


(** C9, as amended.  For an update of an existing order that answers
    200 with no statement failing: the order row carries the new
    fields; with an empty list of image files the image rows are
    unchanged; with a non-empty list all image rows of the order are
    deleted and rows are inserted for those supplied names that exist
    in the upload directory, in order (all of them when the names fit
    the column), the rows of other orders staying; the save, the
    deletion and the inserts are issued on one transaction between
    Begin and Commit. *)
Theorem UpdateOrder_images env id orderID order req c
    (Hid : Atoi id = Some orderID)
    (Hfirst : first_order (fun o => ID o =? orderID) (db c) = Some order)
    (Hquiet : faults c = [])
    (Hok : code (fst (UpdateOrder env id (Decoded req) c)) = 200) :
  let c' := snd (UpdateOrder env id (Decoded req) c) in
  let updated := set_updated (now env) (apply_update req order) in
  let files := validImageFiles env (r_ImageFiles req) in
  In updated (orders (db c'))
  /\ (r_ImageFiles req = [] -> order_images (db c') = order_images (db c))
  /\ (r_ImageFiles req <> [] ->
      exists imgs,
        order_images (db c') =
          List.filter (fun i => negb (img_OrderID i =? orderID)) (order_images (db c)) ++ imgs
        /\ images_of orderID (db c') = imgs
        /\ sublist (map Filename imgs) files
        /\ (Forall (fun f => runeCount f <= 255) (r_ImageFiles req) ->
            map Filename imgs = files))
  /\ exists pre,
       Forall (eq SQuery) pre
       /\ log c' = log c ++ pre ++ [SBegin; SSaveOrder OnTx orderID]
                     ++ image_stmts orderID (r_ImageFiles req) files ++ [SCommit; SQuery].
Proof.
  intros c' updated files. subst c' updated files.
  destruct (UpdateOrder env id (Decoded req) c) as [resp c'] eqn:Hrun. simpl in *.
  destruct (first_order_Some _ _ _ Hfirst) as [Hin Hoid%Z.eqb_eq].
  destruct (UpdateOrder_quiet _ _ _ _ _ _ _ _ Hid Hfirst Hquiet Hrun Hok)
    as (c1 & pre & Hdb1 & Hf1 & Hpre & Hlog1 & Htx).
  rewrite <- Hdb1 in Hin.
  destruct (UpdateOrder_tx_quiet _ _ _ _ _ _ Hf1 Hin Htx Hok)
    as (Hnew & _ & Hnone & Hsome & Hlog).
  rewrite Hoid, Hdb1 in *.
  split; [exact Hnew|]. split; [exact Hnone|]. split.
  - intros Hne. destruct (Hsome Hne) as (imgs & Himgs & Hown & Hsub & Hall).
    exists imgs. split; [exact Himgs|]. split; [|auto].
    unfold images_of. rewrite Himgs. by apply images_of_replaced.
  - exists pre. split; [exact Hpre|]. rewrite Hlog, Hlog1, <- !app_assoc. reflexivity.
Qed.

(** Replacing the two images of ORD-100 by c.webp. *)
Lemma UpdateOrder_images_witness :
  Atoi "1" = Some 1 /\ faults conn_ORD100 = []
  /\ code (fst (UpdateOrder env_uploads "1" (Decoded (with_files ["c.webp"] req_ORD100))
                  conn_ORD100)) = 200
  /\ exists imgs,
       images_of 1 (db (snd (UpdateOrder env_uploads "1"
                               (Decoded (with_files ["c.webp"] req_ORD100)) conn_ORD100)))
         = imgs
       /\ map Filename imgs = ["c.webp"].
Proof.
  split; [reflexivity|]. split; [reflexivity|]. split; [reflexivity|].
  destruct (first_order (fun o => ID o =? 1) (db conn_ORD100)) as [order|] eqn:Hfirst;
    [|vm_compute in Hfirst; discriminate Hfirst].
  destruct (UpdateOrder_images env_uploads "1" 1 order (with_files ["c.webp"] req_ORD100)
              conn_ORD100 eq_refl Hfirst eq_refl eq_refl) as (_ & _ & Hsome & _).
  destruct Hsome as (imgs & _ & Himgs & _ & Hall); [discriminate|].
  exists imgs. split; [exact Himgs|]. apply Hall.
  repeat constructor. vm_compute. discriminate.
Defined.

(** C9 as stated fails: a supplied name that is not in the upload
    directory gets no row, so the image set is not the supplied list. *)
Lemma UpdateOrder_drops_missing_files :
  ~ update_replaces_with_supplied env_uploads "1" 1
      (with_files ["a.png"; "ghost.png"] req_ORD100) conn_ORD100.
Proof.
  unfold update_replaces_with_supplied. intros H.
  specialize (H ltac:(discriminate) eq_refl). vm_compute in H. discriminate H.
Qed.

(** C2, as amended.  The page number of [GetOrders] is at least 1 and
    the page size is within [1,100]: a page size that parses and lies
    in [1,100] is used, every other one (not a number, below 1, above
    100) is replaced by the default 20; a page number below 1 or not a
    number is replaced by 1. *)
Theorem GetOrders_pagination pageQ limitQ :
  let page := GetOrders_page pageQ in
  let limit := GetOrders_limit limitQ in
  1 <= page /\ 1 <= limit <= 100
  /\ (forall n, Atoi (DefaultQuery limitQ "20") = Some n ->
        limit = if (1 <=? n) && (n <=? 100) then n else 20)
  /\ (Atoi (DefaultQuery limitQ "20") = None -> limit = 20)
  /\ (forall n, Atoi (DefaultQuery pageQ "1") = Some n -> page = Z.max 1 n)
  /\ (Atoi (DefaultQuery pageQ "1") = None -> page = 1).
Proof.
  unfold GetOrders_page, GetOrders_limit. simpl.
  destruct (Atoi (DefaultQuery pageQ "1")) as [p|];
    destruct (Atoi (DefaultQuery limitQ "20")) as [l|];
    repeat match goal with
           | |- context [?a <? ?b] => destruct (Z.ltb_spec a b)
           | |- context [?a <=? ?b] => destruct (Z.leb_spec a b)
           end; simpl; repeat split; intros; try discriminate; try lia;
    repeat match goal with H : Some _ = Some _ |- _ => injection H as <- end;
    repeat match goal with
           | |- context [?a <=? ?b] => destruct (Z.leb_spec a b)
           end; simpl; lia.
Qed.

(** limit=50 is used; limit=0, limit=-3 and no limit give 20. *)
Lemma GetOrders_pagination_witness :
  GetOrders_limit (Some "50") = 50 /\ GetOrders_limit (Some "0") = 20
  /\ GetOrders_limit (Some "-3") = 20 /\ GetOrders_limit None = 20
  /\ GetOrders_page (Some "-2") = 1.
Proof.
  destruct (GetOrders_pagination (Some "-2") (Some "50")) as (_ & _ & H50 & _ & Hp & _).
  destruct (GetOrders_pagination None (Some "0")) as (_ & _ & H0 & _).
  destruct (GetOrders_pagination None (Some "-3")) as (_ & _ & Hm3 & _).
  destruct (GetOrders_pagination None None) as (_ & _ & Hd & _).
  rewrite (H50 50 eq_refl), (H0 0 eq_refl), (Hm3 (-3) eq_refl), (Hd 20 eq_refl),
    (Hp (-2) eq_refl).
  repeat split.
Defined.

(** C2 as stated fails: limit=150 gives 20, not 100. *)
Lemma GetOrders_limit_150 :
  GetOrders_limit (Some "150") = 20 /\ clampLimit 150 = 100
  /\ GetOrders_limit (Some "150") <> clampLimit 150.
Proof. repeat split. vm_compute. discriminate. Qed.

End order_claims.
